(** * copywriter-pro: the page controller of [workflow/main.js]

    A shallow embedding of the client-side script: the lead parser of the
    leads form, the three network flows (dashboard statistics, campaign
    creation, lead upload followed by campaign launch) and the smooth-scroll
    anchor handler, together with the part of the JavaScript runtime and of
    the browser they rely on. *)

From Stdlib Require Import ZArith NArith List Ascii String Lia Bool DecimalString.
From stdpp Require Import base option list gmap.
Import ListNotations.

Local Open Scope N_scope.
Local Set Warnings "-register-all".

(** ** The JavaScript runtime the script relies on *)

(** A JavaScript string is a sequence of UTF-16 code units. *)
Abbreviation jsstring := (list N).

(** An ASCII literal of the script, as a JavaScript string. *)
Definition js (s : string) : jsstring :=
  List.map N_of_ascii (list_ascii_of_string s).

Module JS.

Definition LF : N := 10.
Definition COMMA : N := 44.

(** ECMAScript [WhiteSpace]: TAB, VT, FF, ZWNBSP and the Unicode
    space separators. *)
Definition isWhiteSpace (c : N) : bool :=
  (c =? 9) || (c =? 11) || (c =? 12) || (c =? 32) || (c =? 160)
  || (c =? 5760) || ((8192 <=? c) && (c <=? 8202))
  || (c =? 8239) || (c =? 8287) || (c =? 12288) || (c =? 65279).

(** ECMAScript [LineTerminator]: LF, CR, LS, PS. *)
Definition isLineTerminator (c : N) : bool :=
  (c =? 10) || (c =? 13) || (c =? 8232) || (c =? 8233).

Definition isStrWhiteSpaceChar (c : N) : bool :=
  isWhiteSpace c || isLineTerminator c.

Fixpoint trimStart (s : jsstring) : jsstring :=
  match s with
  | [] => []
  | c :: s' => if isStrWhiteSpaceChar c then trimStart s' else s
  end.

Definition trimEnd (s : jsstring) : jsstring :=
  rev (trimStart (rev s)).

(** [String.prototype.trim] *)
Definition trim (s : jsstring) : jsstring :=
  trimEnd (trimStart s).

(** [String.prototype.split] with a separator of one code unit: the
    substrings between the occurrences of the separator; the empty string
    gives one empty substring. *)
Fixpoint split (sep : N) (s : jsstring) : list jsstring :=
  match s with
  | [] => [[]]
  | c :: s' =>
      if c =? sep then [] :: split sep s'
      else match split sep s' with
           | [] => [[c]]
           | t :: ts => (c :: t) :: ts
           end
  end.

(** [Array.prototype.join] with a separator string, on strings. *)
Fixpoint join (sep : jsstring) (l : list jsstring) : jsstring :=
  match l with
  | [] => []
  | [t] => t
  | t :: ts => t ++ sep ++ join sep ts
  end.

(** *** Values, errors and conversions *)

(** The errors the script can meet: a [TypeError] of the language, the
    [SyntaxError] of [Response.json] on a body that is not JSON, the
    rejection of [fetch] on a network failure, and the [SyntaxError]
    DOMException of [querySelector] on an invalid selector. *)
Inductive jserror := TypeError | JSONSyntaxError | FetchFailed | InvalidSelector.

(** Completion of an evaluation: a value, or a thrown error. *)
Inductive outcome (A : Type) :=
| Ok (a : A)
| Throw (e : jserror).
Arguments Ok {A} a.
Arguments Throw {A} e.

(** The values the script handles: form values, and what [JSON.parse]
    builds. [JNum z] is the Number of integer value [z], for [z] a safe
    integer (below 2^53 in magnitude); an object is the list of its own
    properties, each key once, in property order. *)
Inductive jsval :=
| JUndefined
| JNull
| JBool (b : bool)
| JNum (z : Z)
| JStr (s : jsstring)
| JArr (elems : list jsval)
| JObj (props : list (jsstring * jsval)).

(** The own property [k] of a property list. *)
Fixpoint own (k : jsstring) (props : list (jsstring * jsval)) : option jsval :=
  match props with
  | [] => None
  | (k', v) :: ps => if decide (k = k') then Some v else own k ps
  end.

(** Property read [v.k], for the property names the script reads
    ([status], [campaign_id], [total_calls], ...), which no built-in
    prototype defines: the own property of an object, [undefined] on any
    other value, a [TypeError] on [null] and [undefined]. *)
Definition Get (v : jsval) (k : jsstring) : outcome jsval :=
  match v with
  | JUndefined | JNull => Throw TypeError
  | JObj props => Ok (default JUndefined (own k props))
  | _ => Ok JUndefined
  end.

(** [v === s] for a string literal [s]. *)
Definition strict_eq_str (v : jsval) (s : jsstring) : bool :=
  match v with
  | JStr s' => bool_decide (s' = s)
  | _ => false
  end.

(** [Number::toString] on a safe integer: its decimal numeral. *)
Definition Number_toString (z : Z) : jsstring :=
  js (NilZero.string_of_int (Z.to_int z)).

(** [ToString]. An array is joined with commas, [null] and [undefined]
    elements giving the empty string; an object made by [JSON.parse]
    gives "[object Object]" through [Object.prototype.toString], unless
    it has an own (hence not callable) [toString] property, which leaves
    no way to a primitive value: a [TypeError]. *)
Fixpoint ToString (v : jsval) : outcome jsstring :=
  match v with
  | JUndefined => Ok (js "undefined")
  | JNull => Ok (js "null")
  | JBool b => Ok (js (if b then "true" else "false"))
  | JNum z => Ok (Number_toString z)
  | JStr s => Ok s
  | JArr elems =>
      (fix join_elems (l : list jsval) : outcome jsstring :=
         match l with
         | [] => Ok []
         | e :: l' =>
             let first :=
               match e with
               | JUndefined | JNull => Ok []
               | _ => ToString e
               end in
             match first with
             | Throw err => Throw err
             | Ok s =>
                 match l' with
                 | [] => Ok s
                 | _ => match join_elems l' with
                        | Throw err => Throw err
                        | Ok rest => Ok (s ++ js "," ++ rest)
                        end
                 end
             end
         end) elems
  | JObj props =>
      match own (js "toString") props with
      | Some _ => Throw TypeError
      | None => Ok (js "[object Object]")
      end
  end.

(** *** [JSON.stringify] *)

Definition hex_digit (n : N) : N := if n <? 10 then 48 + n else 87 + n.

(** [UnicodeEscape]: backslash, u and four lowercase hexadecimal digits. *)
Definition UnicodeEscape (c : N) : jsstring :=
  [92; 117; hex_digit (c / 4096 mod 16); hex_digit (c / 256 mod 16);
   hex_digit (c / 16 mod 16); hex_digit (c mod 16)].

Definition isLeadingSurrogate (c : N) : bool := (55296 <=? c) && (c <=? 56319).
Definition isTrailingSurrogate (c : N) : bool := (56320 <=? c) && (c <=? 57343).

(** The JSON text of one code unit that is not part of a surrogate pair. *)
Definition quote_unit (c : N) : jsstring :=
  if c =? 8 then [92; 98]
  else if c =? 9 then [92; 116]
  else if c =? 10 then [92; 110]
  else if c =? 12 then [92; 102]
  else if c =? 13 then [92; 114]
  else if c =? 34 then [92; 34]
  else if c =? 92 then [92; 92]
  else if c <? 32 then UnicodeEscape c
  else if isLeadingSurrogate c || isTrailingSurrogate c then UnicodeEscape c
  else [c].

Fixpoint quote_units (s : jsstring) : jsstring :=
  match s with
  | [] => []
  | c :: s' =>
      match s' with
      | d :: s'' =>
          if isLeadingSurrogate c && isTrailingSurrogate d
          then c :: d :: quote_units s''
          else quote_unit c ++ quote_units s'
      | [] => quote_unit c
      end
  end.

(** [QuoteJSONString] *)
Definition QuoteJSONString (s : jsstring) : jsstring :=
  [34] ++ quote_units s ++ [34].

(** [JSON.stringify(v)] with no replacer and no indentation; [None] is
    [undefined]. A property whose value is [undefined] is left out of an
    object, and an [undefined] element of an array is written [null]. *)
Fixpoint JSON_stringify (v : jsval) : option jsstring :=
  match v with
  | JUndefined => None
  | JNull => Some (js "null")
  | JBool b => Some (js (if b then "true" else "false"))
  | JNum z => Some (Number_toString z)
  | JStr s => Some (QuoteJSONString s)
  | JArr elems =>
      Some (js "[" ++
            join (js ",")
              (List.map (fun e => default (js "null") (JSON_stringify e)) elems)
            ++ js "]")
  | JObj props =>
      Some (js "{" ++
            join (js ",")
              (omap (fun kv => (fun s => QuoteJSONString (fst kv) ++ js ":" ++ s)
                                 <$> JSON_stringify (snd kv)) props)
            ++ js "}")
  end.

End JS.

(** ** The lead parser of the leads form (main.js, lines 83-87) *)

(** A lead as the [map] callback builds it: each field is a string, or
    [undefined] ([None]) when the line has no such token. *)
Record lead := { name : option jsstring; phone : option jsstring }.

(** [leadsText.split('\n')] *)
Definition lines (leadsText : jsstring) : list jsstring :=
  JS.split JS.LF leadsText.

(** The [map] callback:
    [const [name, phone] = line.split(',');
     return { name: name?.trim(), phone: phone?.trim() }]. *)
Definition parse_line (line : jsstring) : lead :=
  let tokens := JS.split JS.COMMA line in
  {| name := JS.trim <$> tokens !! 0%nat;
     phone := JS.trim <$> tokens !! 1%nat |}.

(** Truthiness of a value that is a string or [undefined]. *)
Definition truthy (v : option jsstring) : bool :=
  match v with
  | Some (_ :: _) => true
  | _ => false
  end.

(** The [filter] callback: [lead.name && lead.phone]. *)
Definition keep (l : lead) : bool := truthy (name l) && truthy (phone l).

Definition parseLeads (leadsText : jsstring) : list lead :=
  List.filter keep (List.map parse_line (lines leadsText)).

Definition example_text : jsstring :=
  js "Alice, 555-1111" ++ [JS.LF] ++ js "Bob,555-2222" ++ [JS.LF]
  ++ js "," ++ [JS.LF] ++ js "Carol,".


(** ** The browser: document, location, network, console *)

Import JS.

(** An element with an [id]: its text content and, for a form control,
    its [value] ([None]: the element has no [value] property). Elements
    are not nested in one another. *)
Record element := { textContent : jsstring; value : option jsstring }.

(** A request handed to [fetch]. *)
Record request := {
  url : jsstring;
  method : jsstring;
  headers : list (jsstring * jsstring);
  body : option jsstring
}.

(** What comes back: the promise of [fetch] rejects, or resolves to a
    response whose body is the JSON text of a value ([Some]) or is not
    JSON ([None]). The HTTP status is not looked at by the script. *)
Inductive reply :=
| Rejected
| Response (json : option jsval).

Record world := {
  (** the elements of the document that have an id *)
  elements : gmap jsstring element;
  (** [querySelector] on the selectors that are not a plain [#id] *)
  selectors : jsstring -> outcome (option jsstring);
  (** the name/value pairs of [window.location.search] *)
  search : list (jsstring * jsstring);
  (** the server: the reply to the last request of a history *)
  network : list request -> reply;
  (** the requests issued so far, oldest first *)
  requests : list request;
  (** the calls of [console.error], oldest first *)
  console : list (jsstring * jserror);
  (** the last value assigned to [window.location.href], if any *)
  href : option jsstring;
  (** whether [preventDefault] was called on the event *)
  defaultPrevented : bool;
  (** the elements [scrollIntoView] was called on, oldest first *)
  scrolled : list jsstring
}.

Definition with_elements (els : gmap jsstring element) (w : world) : world :=
  {| elements := els; selectors := selectors w; search := search w;
     network := network w; requests := requests w; console := console w;
     href := href w; defaultPrevented := defaultPrevented w;
     scrolled := scrolled w |}.

Definition with_requests (rs : list request) (w : world) : world :=
  {| elements := elements w; selectors := selectors w; search := search w;
     network := network w; requests := rs; console := console w;
     href := href w; defaultPrevented := defaultPrevented w;
     scrolled := scrolled w |}.

Definition with_console (c : list (jsstring * jserror)) (w : world) : world :=
  {| elements := elements w; selectors := selectors w; search := search w;
     network := network w; requests := requests w; console := c;
     href := href w; defaultPrevented := defaultPrevented w;
     scrolled := scrolled w |}.

Definition with_href (h : option jsstring) (w : world) : world :=
  {| elements := elements w; selectors := selectors w; search := search w;
     network := network w; requests := requests w; console := console w;
     href := h; defaultPrevented := defaultPrevented w;
     scrolled := scrolled w |}.

Definition with_defaultPrevented (b : bool) (w : world) : world :=
  {| elements := elements w; selectors := selectors w; search := search w;
     network := network w; requests := requests w; console := console w;
     href := href w; defaultPrevented := b; scrolled := scrolled w |}.

Definition with_scrolled (l : list jsstring) (w : world) : world :=
  {| elements := elements w; selectors := selectors w; search := search w;
     network := network w; requests := requests w; console := console w;
     href := href w; defaultPrevented := defaultPrevented w; scrolled := l |}.

(** *** Computations of the script: state and exceptions *)

Definition M (A : Type) : Type := world -> outcome A * world.

Definition ret {A} (a : A) : M A := fun w => (Ok a, w).

Definition bind {A B} (m : M A) (f : A -> M B) : M B :=
  fun w =>
    match m w with
    | (Ok a, w') => f a w'
    | (Throw e, w') => (Throw e, w')
    end.

Definition throw {A} (e : jserror) : M A := fun w => (Throw e, w).

(** A completion of the language, inside a computation. *)
Definition lift {A} (o : outcome A) : M A := fun w => (o, w).

(** [try { m } catch (error) { h error }] *)
Definition try_catch {A} (m : M A) (h : jserror -> M A) : M A :=
  fun w =>
    match m w with
    | (Ok a, w') => (Ok a, w')
    | (Throw e, w') => h e w'
    end.

Notation "'let!' x ':=' m 'in' k" := (bind m (fun x => k))
  (at level 10, x name, m at level 100, k at level 200).
Notation "m ';;;' k" := (bind m (fun _ => k))
  (at level 100, k at level 200, right associativity).

(** *** The browser interfaces the script calls *)

(** [e.preventDefault()] *)
Definition preventDefault : M unit :=
  fun w => (Ok tt, with_defaultPrevented true w).

(** [document.getElementById(id)]: the id of the element found, or
    [null]. *)
Definition getElementById (id : jsstring) : M (option jsstring) :=
  fun w => (Ok (match elements w !! id with Some _ => Some id | None => None end), w).

(** [el.value], with the [TypeError] of a property read on [null]. *)
Definition get_value (el : option jsstring) : M jsval :=
  fun w =>
    match el with
    | None => (Throw TypeError, w)
    | Some id =>
        match elements w !! id with
        | Some e => (Ok (match value e with Some s => JStr s | None => JUndefined end), w)
        | None => (Throw TypeError, w)
        end
    end.

(** Conversion to the nullable string of [textContent]: [null] and
    [undefined] give the empty string, any other value goes through
    [ToString]. *)
Definition text_value (v : jsval) : outcome jsstring :=
  match v with
  | JUndefined | JNull => Ok []
  | _ => ToString v
  end.

(** [el.textContent = v], with the [TypeError] of a property write on
    [null]. *)
Definition set_textContent (el : option jsstring) (v : jsval) : M unit :=
  fun w =>
    match el with
    | None => (Throw TypeError, w)
    | Some id =>
        match elements w !! id with
        | None => (Throw TypeError, w)
        | Some e =>
            match text_value v with
            | Throw err => (Throw err, w)
            | Ok s =>
                (Ok tt,
                 with_elements
                   (<[id := {| textContent := s; value := value e |}]> (elements w)) w)
            end
        end
    end.

Definition isAlpha (c : N) : bool :=
  ((65 <=? c) && (c <=? 90)) || ((97 <=? c) && (c <=? 122)) || (c =? 95).

Definition isDigit (c : N) : bool := (48 <=? c) && (c <=? 57).

Definition isAlnumDash (c : N) : bool :=
  isAlpha c || isDigit c || (c =? 45).

(** An identifier made of ASCII letters, digits, [_] and [-] that starts
    with a letter or [_]. *)
Definition plain_ident (s : jsstring) : bool :=
  match s with
  | [] => false
  | c :: s' => isAlpha c && forallb isAlnumDash s'
  end.

Definition starts_with_digit (s : jsstring) : bool :=
  match s with
  | [] => false
  | c :: _ => isDigit c
  end.

(** [document.querySelector(sel)]: the id of the first element matched,
    or [null]. The selector [#] followed by a plain identifier selects
    the element with that id. [#] alone, and [#] followed by a digit (a
    hash that is not an identifier), are not selectors: a [SyntaxError]
    DOMException is thrown. The other selectors are the document's to
    answer. *)
Definition querySelector (sel : jsstring) : M (option jsstring) :=
  fun w =>
    match sel with
    | [35] => (Throw InvalidSelector, w)
    | 35 :: id =>
        if plain_ident id
        then (Ok (match elements w !! id with Some _ => Some id | None => None end), w)
        else if starts_with_digit id then (Throw InvalidSelector, w)
        else (selectors w sel, w)
    | _ => (selectors w sel, w)
    end.

(** [target.scrollIntoView({ behavior: 'smooth' })] *)
Definition scrollIntoView (target : jsstring) : M unit :=
  fun w => (Ok tt, with_scrolled (scrolled w ++ [target]) w).

(** [new URLSearchParams(window.location.search).get(name)]: the value
    of the first pair with that name, or [null] ([None]). *)
Definition URLSearchParams_get (k : jsstring) : M (option jsstring) :=
  fun w => (Ok (snd <$> List.find (fun p => bool_decide (fst p = k)) (search w)), w).

(** [window.location.href = target] *)
Definition set_location_href (target : jsstring) : M unit :=
  fun w => (Ok tt, with_href (Some target) w).

(** [console.error(message, error)] *)
Definition console_error (message : jsstring) (error : jserror) : M unit :=
  fun w => (Ok tt, with_console (console w ++ [(message, error)]) w).

(** [await fetch(url, options)]: the request is issued; the promise
    rejects or resolves to the response. *)
Definition fetch (r : request) : M (option jsval) :=
  fun w =>
    let w' := with_requests (requests w ++ [r]) w in
    match network w (requests w ++ [r]) with
    | Rejected => (Throw FetchFailed, w')
    | Response json => (Ok json, w')
    end.

(** [await response.json()] *)
Definition json_of (response : option jsval) : M jsval :=
  match response with
  | Some v => ret v
  | None => throw JSONSyntaxError
  end.

(** ** The script (main.js) *)

Definition stats_request : request :=
  {| url := js "/api/user/stats"; method := js "GET";
     headers := []; body := None |}.

(** One statement of [fetchDashboardStats]:
    [document.getElementById(id).textContent = stats.k]. *)
Definition write_stat (id k : jsstring) (stats : jsval) : M unit :=
  let! el := getElementById id in
  let! v := lift (Get stats k) in
  set_textContent el v.

(** [fetchDashboardStats] (lines 30-42) *)
Definition fetchDashboardStats : M unit :=
  try_catch
    (let! response := fetch stats_request in
     let! stats := json_of response in
     write_stat (js "total-calls") (js "total_calls") stats ;;;
     write_stat (js "hot-leads") (js "hot_leads") stats ;;;
     write_stat (js "booked-calls") (js "booked_calls") stats ;;;
     write_stat (js "conversion-rate") (js "conversion_rate") stats)
    (fun error => console_error (js "Error fetching stats:") error).

(** The click handler of the anchors [a[href^="#"]] (lines 20-26);
    [href] is [this.getAttribute('href')]. *)
Definition anchor_click (href : jsstring) : M unit :=
  preventDefault ;;;
  let! target := querySelector href in
  match target with
  | Some el => scrollIntoView el
  | None => ret tt
  end.

(** The click handler of the checkout button (lines 6-9) *)
Definition checkoutButton_click : M unit :=
  preventDefault ;;;
  set_location_href (js "/webhook/stripe-test").

(** A call of an async function whose promise is dropped: what it does
    is done, what it throws is not seen by the caller. *)
Definition spawn (m : M unit) : M unit :=
  fun w => (Ok tt, snd (m w)).

(** The dashboard part of the [DOMContentLoaded] callback (lines 13-16):
    [const dashboard = document.querySelector('.dashboard');
     if (dashboard) { fetchDashboardStats(); }].
    Nothing else in the callback reads what the call writes, so the call
    is run to its end where it is made. *)
Definition dashboard_init : M unit :=
  let! dashboard := querySelector (js ".dashboard") in
  match dashboard with
  | Some _ => spawn fetchDashboardStats
  | None => ret tt
  end.

(** The request of the campaign form:
    [fetch('/api/campaign/create', { method: 'POST', headers: ...,
    body: JSON.stringify(formData) })]. *)
Definition create_request (formData : jsval) : request :=
  {| url := js "/api/campaign/create"; method := js "POST";
     headers := [(js "Content-Type", js "application/json")];
     body := JSON_stringify formData |}.

Definition formData_of (name niche script : jsval) : jsval :=
  JObj [(js "name", name); (js "niche", niche); (js "script", script)].

(** The submit handler of the campaign form (lines 47-70) *)
Definition campaignForm_submit : M unit :=
  preventDefault ;;;
  let! el := getElementById (js "campaign-name") in
  let! name := get_value el in
  let! el := getElementById (js "target-niche") in
  let! niche := get_value el in
  let! el := getElementById (js "script") in
  let! script := get_value el in
  let formData := formData_of name niche script in
  try_catch
    (let! response := fetch (create_request formData) in
     let! data := json_of response in
     let! status := lift (Get data (js "status")) in
     if strict_eq_str status (js "success") then
       let! campaign_id := lift (Get data (js "campaign_id")) in
       let! suffix := lift (ToString campaign_id) in
       set_location_href (js "/add-leads?campaign=" ++ suffix)
     else ret tt)
    (fun error => console_error (js "Error creating campaign:") error).

(** The campaign identifier, a string or [null], as a value. *)
Definition id_value (campaignId : option jsstring) : jsval :=
  from_option JStr JNull campaignId.

(** The request of [launchCampaign], the template literal of its URL
    evaluated to [id]. *)
Definition launch_request (id : jsstring) : request :=
  {| url := js "/api/campaign/" ++ id ++ js "/launch";
     method := js "POST"; headers := []; body := None |}.

(** [launchCampaign] (lines 106-118); [campaignId] is a string or
    [null] ([None]). *)
Definition launchCampaign (campaignId : option jsstring) : M unit :=
  try_catch
    (let! id := lift (ToString (id_value campaignId)) in
     let! response := fetch (launch_request id) in
     let! data := json_of response in
     let! status := lift (Get data (js "status")) in
     if strict_eq_str status (js "started") then
       set_location_href (js "/dashboard")
     else ret tt)
    (fun error => console_error (js "Error launching campaign:") error).

(** A lead of the parsed list, as a value. *)
Definition lead_value (l : lead) : jsval :=
  JObj [(js "name", from_option JStr JUndefined (name l));
        (js "phone", from_option JStr JUndefined (phone l))].

(** The request of the leads form:
    [fetch('/api/leads/upload', { method: 'POST', headers: ...,
    body: JSON.stringify({ campaignId, leads }) })]. *)
Definition upload_request (campaignId : option jsstring) (leads : list lead)
  : request :=
  {| url := js "/api/leads/upload"; method := js "POST";
     headers := [(js "Content-Type", js "application/json")];
     body := JSON_stringify
               (JObj [(js "campaignId", id_value campaignId);
                      (js "leads", JArr (List.map lead_value leads))]) |}.

(** The submit handler of the leads form (lines 75-103) *)
Definition leadsForm_submit : M unit :=
  preventDefault ;;;
  let! campaignId := URLSearchParams_get (js "campaign") in
  let! el := getElementById (js "leads-csv") in
  let! leadsText := get_value el in
  let! leads :=
    match leadsText with
    | JStr text => ret (parseLeads text)
    | _ => throw TypeError
    end in
  try_catch
    (let! response := fetch (upload_request campaignId leads) in
     let! data := json_of response in
     let! status := lift (Get data (js "status")) in
     if strict_eq_str status (js "success") then launchCampaign campaignId
     else ret tt)
    (fun error => console_error (js "Error uploading leads:") error).

(** ** Observations on a page *)

(** The reply the server gives to [r] when it is the next request. *)
Definition next_reply (w : world) (r : request) : reply :=
  network w (requests w ++ [r]).

(** The text content of the element [id], if it is in the document. *)
Definition text_of (id : jsstring) (w : world) : option jsstring :=
  textContent <$> elements w !! id.

(** What [document.getElementById(id).value] reads, if the element is in
    the document. *)
Definition field_value (id : jsstring) (w : world) : option jsval :=
  (fun e => match value e with Some s => JStr s | None => JUndefined end)
    <$> elements w !! id.

(** The [campaign] parameter of the query string, or [null]. *)
Definition campaign_param (w : world) : option jsstring :=
  snd <$> List.find (fun p => bool_decide (fst p = js "campaign")) (search w).

(** The text of the campaign identifier in the template literal of
    [launchCampaign]. *)
Definition id_text (campaignId : option jsstring) : jsstring :=
  default (js "null") campaignId.

(** A server that answers the first request with [first] and any later
    one with [later]. *)
Definition two_replies (first later : reply) (history : list request) : reply :=
  match history with
  | [_] => first
  | _ => later
  end.

(** A value that is not an object: [ToString] cannot throw on it. *)
Definition primitive (v : jsval) : bool :=
  match v with
  | JArr _ | JObj _ => false
  | _ => true
  end.

(** The nodes of the dashboard and the field of the statistics each one
    shows. *)
Definition stat_nodes : list (jsstring * jsstring) :=
  [(js "total-calls", js "total_calls"); (js "hot-leads", js "hot_leads");
   (js "booked-calls", js "booked_calls");
   (js "conversion-rate", js "conversion_rate")].

(** *** Sample pages *)

Definition blank_page (net : list request -> reply) : world :=
  {| elements := ∅; selectors := fun _ => Ok None; search := [];
     network := net; requests := []; console := []; href := None;
     defaultPrevented := false; scrolled := [] |}.

Definition text_node (s : jsstring) : element :=
  {| textContent := s; value := None |}.

Definition input_field (s : jsstring) : element :=
  {| textContent := []; value := Some s |}.

(** A dashboard whose four counters show a dash. *)
Definition dashboard_page (net : list request -> reply) : world :=
  with_elements
    (<[js "total-calls" := text_node (js "-")]>
       (<[js "hot-leads" := text_node (js "-")]>
          (<[js "booked-calls" := text_node (js "-")]>
             (<[js "conversion-rate" := text_node (js "-")]> ∅))))
    (blank_page net).

(** The campaign setup page, its form filled in. *)
Definition campaign_page (net : list request -> reply) : world :=
  with_elements
    (<[js "campaign-name" := input_field (js "Spring")]>
       (<[js "target-niche" := input_field (js "dentists")]>
          (<[js "script" := input_field (js "Hello")]> ∅)))
    (blank_page net).

(** The add-leads page, with the given query parameters and text. *)
Definition leads_page (params : list (jsstring * jsstring)) (text : jsstring)
  (net : list request -> reply) : world :=
  {| elements := <[js "leads-csv" := input_field text]> ∅;
     selectors := fun _ => Ok None; search := params;
     network := net; requests := []; console := []; href := None;
     defaultPrevented := false; scrolled := [] |}.

(** The response [{total_calls:10, hot_leads:2, booked_calls:1,
    conversion_rate:"20%"}]. *)
Definition sample_stats : jsval :=
  JObj [(js "total_calls", JNum 10); (js "hot_leads", JNum 2);
        (js "booked_calls", JNum 1); (js "conversion_rate", JStr (js "20%"))].

(** ** What the specification says of the lead list *)

(** A line gives the lead [l]: it starts with two tokens [t1] and [t2]
    free of commas, separated by a comma and followed by nothing or by a
    further comma, both non-empty after trimming, and [l] holds them
    trimmed. *)
Definition has_lead (line : jsstring) (l : lead) : Prop :=
  exists t1 t2 tail,
    line = t1 ++ COMMA :: t2 ++ tail /\
    ~ In COMMA t1 /\ ~ In COMMA t2 /\
    (tail = [] \/ exists r, tail = COMMA :: r) /\
    trim t1 <> [] /\ trim t2 <> [] /\
    l = {| name := Some (trim t1); phone := Some (trim t2) |}.

(** [leads] holds, in the order of the lines, the lead of every line that
    gives one, and nothing else. *)
Inductive kept_in_order : list jsstring -> list lead -> Prop :=
| kept_nil : kept_in_order [] []
| kept_entry line l ls leads :
    has_lead line l -> kept_in_order ls leads ->
    kept_in_order (line :: ls) (l :: leads)
| kept_drop line ls leads :
    (forall l, ~ has_lead line l) -> kept_in_order ls leads ->
    kept_in_order (line :: ls) leads.

(** ** Further notions used to state properties of the script *)

(** A lead written back as a line: name, comma, phone. *)
Definition lead_line (l : lead) : jsstring :=
  default [] (name l) ++ COMMA :: default [] (phone l).

(** A list of leads written back as a text, one line per lead. *)
Definition leads_text (leads : list lead) : jsstring :=
  join [LF] (List.map lead_line leads).

(** A field of a parsed lead is clean: it is a string, not empty, with
    no white space at either end, and free of commas and line feeds. *)
Definition clean (field : option jsstring) : Prop :=
  exists s, field = Some s /\ s <> [] /\ trim s = s /\
            ~ In COMMA s /\ ~ In LF s.

(** Two documents hold the same elements with the same form values, and
    differ at most in the text of the nodes listed. *)
Definition same_but_text (nodes : list jsstring)
  (els els' : gmap jsstring element) : Prop :=
  (forall id, ~ In id nodes -> els' !! id = els !! id) /\
  (forall id, value <$> els' !! id = value <$> els !! id).

(** A text with no control character: every code unit is at least 32. *)
Abbreviation printable s := (Forall (fun u : N => 32 <= u) s).

(** A JSON value that is neither [null] nor an object. *)
Definition scalar_or_array (v : jsval) : bool :=
  match v with
  | JBool _ | JNum _ | JStr _ | JArr _ => true
  | _ => false
  end.

(** A dashboard that lacks the hot-leads node. *)
Definition partial_dashboard_page (net : list request -> reply) : world :=
  with_elements
    (<[js "total-calls" := text_node (js "-")]>
       (<[js "booked-calls" := text_node (js "-")]>
          (<[js "conversion-rate" := text_node (js "-")]> ∅)))
    (blank_page net).

(** A landing page with a pricing section. *)
Definition landing_page : world :=
  with_elements (<[js "pricing" := text_node (js "Plans")]> ∅)
    (blank_page (fun _ => Rejected)).

(** ** Properties of the runtime functions *)

Lemma split_nonempty sep s : split sep s <> [].
Proof.
  destruct s as [|c s]; simpl; [discriminate|].
  destruct (c =? sep); [discriminate|].
  destruct (split sep s); discriminate.
Qed.

Lemma split_no_sep sep t : ~ In sep t -> split sep t = [t].
Proof.
  induction t as [|c t IH]; intros H; simpl; [reflexivity|].
  apply not_in_cons in H as [Hc Ht].
  destruct (N.eqb_spec c sep) as [->|_]; [congruence|].
  now rewrite (IH Ht).
Qed.

Lemma split_app_sep sep t s :
  ~ In sep t -> split sep (t ++ sep :: s) = t :: split sep s.
Proof.
  induction t as [|c t IH]; intros H; simpl.
  - now rewrite N.eqb_refl.
  - apply not_in_cons in H as [Hc Ht].
    destruct (N.eqb_spec c sep) as [->|_]; [congruence|].
    now rewrite (IH Ht).
Qed.

Lemma join_cons sep t ts :
  ts <> [] -> join sep (t :: ts) = t ++ sep ++ join sep ts.
Proof. destruct ts; [congruence | reflexivity]. Qed.

Lemma join_split sep s : join [sep] (split sep s) = s.
Proof.
  induction s as [|c s IH]; simpl; [reflexivity|].
  destruct (N.eqb_spec c sep) as [->|_].
  - rewrite join_cons by apply split_nonempty. simpl. now rewrite IH.
  - pose proof (split_nonempty sep s) as Hne.
    destruct (split sep s) as [|t ts]; [congruence|].
    destruct ts as [|t' ts]; simpl in *; now rewrite <- IH.
Qed.

Lemma split_tokens_no_sep sep s : Forall (fun t => ~ In sep t) (split sep s).
Proof.
  induction s as [|c s IH]; simpl.
  - constructor; [intros [] | constructor].
  - destruct (N.eqb_spec c sep) as [->|Hne].
    + constructor; [intros [] | exact IH].
    + destruct (split sep s) as [|t ts].
      * constructor; [|constructor]. intros [E|[]]. congruence.
      * inversion IH; subst. constructor; [|assumption].
        intros [E|E]; [congruence | contradiction].
Qed.

Lemma split_length sep s :
  length (split sep s) = S (count_occ N.eq_dec s sep).
Proof.
  induction s as [|c s IH]; simpl; [reflexivity|].
  destruct (N.eqb_spec c sep) as [->|Hne].
  - destruct (N.eq_dec sep sep); [|congruence]. simpl. now rewrite IH.
  - destruct (N.eq_dec c sep); [congruence|].
    pose proof (split_nonempty sep s) as Hs.
    destruct (split sep s); [congruence|]. exact IH.
Qed.

(** A string is empty after trimming exactly when all its code units
    are white space or line terminators. *)
Lemma trimStart_nil_iff s :
  trimStart s = [] <-> forallb isStrWhiteSpaceChar s = true.
Proof.
  induction s as [|c s IH]; simpl; [tauto|].
  destruct (isStrWhiteSpaceChar c); simpl; [exact IH|].
  split; discriminate.
Qed.

Lemma trimStart_all_space s :
  forallb isStrWhiteSpaceChar (trimStart s) = true -> trimStart s = [].
Proof.
  induction s as [|c s IH]; simpl; [reflexivity|].
  destruct (isStrWhiteSpaceChar c) eqn:E; [exact IH|].
  simpl. rewrite E. discriminate.
Qed.

Lemma forallb_rev {A} (f : A -> bool) l :
  forallb f (rev l) = forallb f l.
Proof.
  induction l as [|a l IH]; simpl; [reflexivity|].
  rewrite forallb_app, IH. simpl. rewrite andb_true_r. apply andb_comm.
Qed.

Lemma trim_nil_iff s :
  trim s = [] <-> forallb isStrWhiteSpaceChar s = true.
Proof.
  unfold trim, trimEnd. split.
  - intros H. apply (f_equal (@rev N)) in H. rewrite rev_involutive in H.
    simpl in H. apply trimStart_nil_iff in H. rewrite forallb_rev in H.
    apply trimStart_nil_iff. now apply trimStart_all_space.
  - intros H. apply trimStart_nil_iff in H. now rewrite H.
Qed.

(** The tokens of a line that has a comma. *)
Lemma split_two_tokens t1 t2 tail :
  ~ In COMMA t1 -> ~ In COMMA t2 ->
  tail = [] \/ (exists r, tail = COMMA :: r) ->
  exists rest, split COMMA (t1 ++ COMMA :: t2 ++ tail) = t1 :: t2 :: rest.
Proof.
  intros H1 H2 [->|[r ->]]; rewrite (split_app_sep _ _ _ H1).
  - rewrite app_nil_r, (split_no_sep _ _ H2). now exists [].
  - rewrite (split_app_sep _ _ _ H2). now exists (split COMMA r).
Qed.

(** Conversely, two first tokens come from such a line. *)
Lemma two_tokens_split line t1 t2 rest :
  split COMMA line = t1 :: t2 :: rest ->
  ~ In COMMA t1 /\ ~ In COMMA t2 /\
  exists tail, line = t1 ++ COMMA :: t2 ++ tail /\
               (tail = [] \/ exists r, tail = COMMA :: r).
Proof.
  intros E.
  pose proof (split_tokens_no_sep COMMA line) as HF. rewrite E in HF.
  inversion HF as [|? ? H1 HF']; subst. inversion HF' as [|? ? H2 _]; subst.
  split; [exact H1|]. split; [exact H2|].
  pose proof (join_split COMMA line) as J. rewrite E in J.
  destruct rest as [|t3 rest].
  - exists []. split; [|now left]. rewrite app_nil_r. now rewrite <- J.
  - exists (COMMA :: join [COMMA] (t3 :: rest)). split; [|right; eauto].
    rewrite <- J. reflexivity.
Qed.

Lemma truthy_Some t : truthy (Some t) = true <-> t <> [].
Proof. destruct t; simpl; split; congruence. Qed.

(** A line is kept exactly when it gives a lead, which is then the one
    the [map] callback built. *)
Lemma keep_has_lead line :
  keep (parse_line line) = true -> has_lead line (parse_line line).
Proof.
  unfold keep, parse_line. intros H.
  apply andb_true_iff in H as [Hn Hp].
  destruct (split COMMA line) as [|t1 [|t2 rest]] eqn:E; simpl in *;
    try discriminate.
  apply truthy_Some in Hn, Hp.
  destruct (two_tokens_split _ _ _ _ E) as (H1 & H2 & tail & -> & Ht).
  exists t1, t2, tail. repeat split; assumption.
Qed.

Lemma has_lead_keep line l :
  has_lead line l -> parse_line line = l /\ keep l = true.
Proof.
  intros (t1 & t2 & tail & -> & H1 & H2 & Ht & Hn & Hp & ->).
  destruct (split_two_tokens t1 t2 tail H1 H2 Ht) as [rest E].
  unfold parse_line, keep. rewrite E. simpl. split; [reflexivity|].
  apply andb_true_iff. split; now apply truthy_Some.
Qed.

Lemma filter_map_kept ls :
  kept_in_order ls (List.filter keep (List.map parse_line ls)).
Proof.
  induction ls as [|line ls IH]; simpl; [constructor|].
  destruct (keep (parse_line line)) eqn:K.
  - apply kept_entry; [now apply keep_has_lead | exact IH].
  - apply kept_drop; [|exact IH].
    intros l Hl. apply has_lead_keep in Hl as [<- Hk]. congruence.
Qed.

(** The relation fixes the list: no other list of leads satisfies it. *)
Lemma kept_in_order_unique ls leads :
  kept_in_order ls leads -> leads = List.filter keep (List.map parse_line ls).
Proof.
  induction 1 as [|line l ls leads Hl _ IH|line ls leads Hn _ IH]; simpl.
  - reflexivity.
  - apply has_lead_keep in Hl as [-> Hk]. rewrite Hk. now f_equal.
  - destruct (keep (parse_line line)) eqn:K; [|exact IH].
    exfalso. exact (Hn _ (keep_has_lead _ K)).
Qed.

(** ** The lead parser *)

(** C1. For every input text, which has as many lines as it has line
    feeds plus one, the lines being the pieces between the line feeds:
    the parsed list has at most that many entries, and it holds, in the
    order of the lines, one entry for each line whose first two
    comma-split tokens are both non-empty after trimming (the two tokens,
    trimmed) and no other entry. The text of the example gives exactly
    Alice and Bob. *)
Theorem C1_parseLeads_lines :
  (forall text,
     length (lines text) = S (count_occ N.eq_dec text LF) /\
     join [LF] (lines text) = text /\
     (length (parseLeads text) <= length (lines text))%nat /\
     kept_in_order (lines text) (parseLeads text)) /\
  parseLeads example_text =
    [ {| name := Some (js "Alice"); phone := Some (js "555-1111") |};
      {| name := Some (js "Bob"); phone := Some (js "555-2222") |} ].
Proof.
  split; [|reflexivity].
  intros text. unfold parseLeads, lines.
  split; [apply split_length|].
  split; [apply join_split|].
  split; [|apply filter_map_kept].
  etransitivity; [apply List.filter_length_le|].
  now rewrite List.length_map.
Qed.

(** C2. For every line of the leads text: a line with no comma is
    dropped by the filter; a line with a comma is parsed into its first
    two comma-delimited tokens, trimmed, and whatever follows a second
    comma has no effect on the result. *)
Theorem C2_line_tokens text line :
  In line (lines text) ->
  (~ In COMMA line ->
   phone (parse_line line) = None /\ keep (parse_line line) = false) /\
  (forall t1 t2 tail,
     line = t1 ++ COMMA :: t2 ++ tail ->
     ~ In COMMA t1 -> ~ In COMMA t2 ->
     tail = [] \/ (exists r, tail = COMMA :: r) ->
     parse_line line = {| name := Some (trim t1); phone := Some (trim t2) |} /\
     parse_line line = parse_line (t1 ++ COMMA :: t2)).
Proof.
  intros _. split.
  - intros H. unfold keep, parse_line. rewrite (split_no_sep _ _ H). simpl.
    split; [reflexivity | apply andb_false_r].
  - intros t1 t2 tail -> H1 H2 Ht.
    destruct (split_two_tokens t1 t2 tail H1 H2 Ht) as [rest E].
    destruct (split_two_tokens t1 t2 [] H1 H2 (or_introl eq_refl)) as [rest' E'].
    rewrite app_nil_r in E'.
    unfold parse_line. rewrite E, E'. split; reflexivity.
Qed.

Lemma C2_line_tokens_witness :
  keep (parse_line (js "JustAName")) = false /\
  parse_line (js "Bob,555-2222,extra,more") =
    {| name := Some (js "Bob"); phone := Some (js "555-2222") |}.
Proof.
  split.
  - apply (C2_line_tokens (js "JustAName") (js "JustAName")).
    + left. reflexivity.
    + vm_compute. intuition discriminate.
  - apply (proj2 (C2_line_tokens (js "Bob,555-2222,extra,more")
                    (js "Bob,555-2222,extra,more") (or_introl eq_refl))
             (js "Bob") (js "555-2222") (js ",extra,more")).
    + reflexivity.
    + vm_compute. intuition discriminate.
    + vm_compute. intuition discriminate.
    + right. exists (js "extra,more"). reflexivity.
Defined.

(** ** Evaluation of the handlers *)

(** Reads a node of the document after a series of writes to nodes with
    known ids. *)
Ltac read_node :=
  rewrite ?lookup_insert_ne by done; rewrite lookup_insert_eq.

(** A handler whose body is a [try] with a logging [catch] lets no
    exception escape. *)
Lemma try_catch_log_total (m : M unit) msg w :
  fst (try_catch m (fun error => console_error msg error) w) = Ok tt.
Proof.
  unfold try_catch. destruct (m w) as [[[]|e] w']; reflexivity.
Qed.

Lemma fetch_rejected r w :
  next_reply w r = Rejected ->
  fetch r w = (Throw FetchFailed, with_requests (requests w ++ [r]) w).
Proof. unfold next_reply, fetch. now intros ->. Qed.

Lemma fetch_response r w json :
  next_reply w r = Response json ->
  fetch r w = (Ok json, with_requests (requests w ++ [r]) w).
Proof. unfold next_reply, fetch. now intros ->. Qed.

Lemma write_stat_ok id k stats v s e w :
  elements w !! id = Some e ->
  Get stats k = Ok v ->
  text_value v = Ok s ->
  write_stat id k stats w =
    (Ok tt,
     with_elements
       (<[id := {| textContent := s; value := value e |}]> (elements w)) w).
Proof.
  intros He Hv Hs.
  unfold write_stat, bind, getElementById, lift, set_textContent.
  now rewrite He, Hv, He, Hs.
Qed.

(** The statistics handler on a JSON object whose four fields convert
    to text: the four nodes are written in turn, nothing is logged. *)
Lemma fetchDashboardStats_object w props e1 e2 e3 e4 s1 s2 s3 s4 :
  next_reply w stats_request = Response (Some (JObj props)) ->
  elements w !! js "total-calls" = Some e1 ->
  elements w !! js "hot-leads" = Some e2 ->
  elements w !! js "booked-calls" = Some e3 ->
  elements w !! js "conversion-rate" = Some e4 ->
  text_value (default JUndefined (own (js "total_calls") props)) = Ok s1 ->
  text_value (default JUndefined (own (js "hot_leads") props)) = Ok s2 ->
  text_value (default JUndefined (own (js "booked_calls") props)) = Ok s3 ->
  text_value (default JUndefined (own (js "conversion_rate") props)) = Ok s4 ->
  fetchDashboardStats w =
    (Ok tt,
     with_elements
       (<[js "conversion-rate" := {| textContent := s4; value := value e4 |}]>
          (<[js "booked-calls" := {| textContent := s3; value := value e3 |}]>
             (<[js "hot-leads" := {| textContent := s2; value := value e2 |}]>
                (<[js "total-calls" := {| textContent := s1; value := value e1 |}]>
                   (elements w)))))
       (with_requests (requests w ++ [stats_request]) w)).
Proof.
  intros Hr H1 H2 H3 H4 T1 T2 T3 T4.
  unfold fetchDashboardStats, try_catch.
  unfold bind at 1. rewrite (fetch_response _ _ _ Hr).
  unfold bind at 1. unfold json_of at 1, ret at 1.
  unfold bind at 1.
  erewrite write_stat_ok; [|exact H1|reflexivity|exact T1].
  unfold bind at 1.
  erewrite write_stat_ok; [|simpl elements; rewrite lookup_insert_ne by done; exact H2|reflexivity|exact T2].
  unfold bind at 1.
  erewrite write_stat_ok; [|simpl elements; rewrite !lookup_insert_ne by done; exact H3|reflexivity|exact T3].
  erewrite write_stat_ok; [|simpl elements; rewrite !lookup_insert_ne by done; exact H4|reflexivity|exact T4].
  reflexivity.
Qed.

Lemma text_value_absent_or_primitive (o : option jsval) :
  from_option primitive true o = true ->
  exists s, text_value (default JUndefined o) = Ok s /\ (o = None -> s = []).
Proof.
  destruct o as [v|]; simpl.
  - destruct v; simpl; try discriminate; eexists; (split; [reflexivity|discriminate]).
  - intros _. now exists [].
Qed.

(** ** The dashboard statistics *)

(** C3, amended. No exception escapes [fetchDashboardStats], whatever
    the page and the reply. When the request is rejected or the body is
    not JSON, the error is logged and the document is left as it was.
    When the body is a JSON object with missing fields (its other fields
    not being objects), nothing is logged and the node of each missing
    field is overwritten with the empty string. *)
Theorem C3_stats_failures w :
  fst (fetchDashboardStats w) = Ok tt /\
  (next_reply w stats_request = Rejected \/
   next_reply w stats_request = Response None ->
   elements (snd (fetchDashboardStats w)) = elements w /\
   exists error,
     console (snd (fetchDashboardStats w)) =
       console w ++ [(js "Error fetching stats:", error)]) /\
  (forall props,
     next_reply w stats_request = Response (Some (JObj props)) ->
     Forall (fun nk => is_Some (elements w !! fst nk) /\
                       from_option primitive true (own (snd nk) props) = true)
       stat_nodes ->
     console (snd (fetchDashboardStats w)) = console w /\
     Forall (fun nk => own (snd nk) props = None ->
                       text_of (fst nk) (snd (fetchDashboardStats w)) = Some [])
       stat_nodes).
Proof.
  split; [apply try_catch_log_total|]. split.
  - intros [Hr|Hr]; unfold fetchDashboardStats, try_catch, bind.
    + rewrite (fetch_rejected _ _ Hr). simpl. eauto.
    + rewrite (fetch_response _ _ _ Hr). simpl. eauto.
  - intros props Hr HF.
    repeat (apply Forall_cons_1 in HF as [[[? ?] ?] HF]). simpl fst in *. simpl snd in *.
    repeat match goal with
           | H : from_option primitive true _ = true |- _ =>
               apply text_value_absent_or_primitive in H as (? & ? & ?)
           end.
    erewrite fetchDashboardStats_object by eassumption.
    split; [reflexivity|].
    unfold stat_nodes, text_of. simpl snd. simpl fst. simpl elements.
    repeat apply Forall_cons_2; [| | | |apply Forall_nil_2]; intros Hn.
    all: read_node; simpl; f_equal; auto.
Qed.

Lemma C3_stats_failures_witness :
  (let w := dashboard_page (fun _ => Rejected) in
   elements (snd (fetchDashboardStats w)) = elements w /\
   exists error,
     console (snd (fetchDashboardStats w)) =
       console w ++ [(js "Error fetching stats:", error)]) /\
  (let w := dashboard_page
              (fun _ => Response (Some (JObj [(js "total_calls", JNum 7)]))) in
   console (snd (fetchDashboardStats w)) = console w /\
   Forall (fun nk => own (snd nk) [(js "total_calls", JNum 7)] = None ->
                     text_of (fst nk) (snd (fetchDashboardStats w)) = Some [])
     stat_nodes).
Proof.
  split.
  - apply (C3_stats_failures (dashboard_page (fun _ => Rejected))).
    left. reflexivity.
  - apply (C3_stats_failures
             (dashboard_page
                (fun _ => Response (Some (JObj [(js "total_calls", JNum 7)]))))).
    + reflexivity.
    + repeat apply Forall_cons_2; try apply Forall_nil_2;
        (split; [eexists; vm_compute; reflexivity | reflexivity]).
Defined.

(** C3 as stated fails on a body with missing fields: on the JSON body
    [{}] the handler logs nothing and the four nodes of the dashboard,
    which showed a dash, are emptied. *)
Lemma C3_missing_fields_counterexample :
  let w := dashboard_page (fun _ => Response (Some (JObj []))) in
  let w' := snd (fetchDashboardStats w) in
  next_reply w stats_request = Response (Some (JObj [])) /\
  console w' = console w /\
  Forall (fun nk => text_of (fst nk) w = Some (js "-") /\
                    text_of (fst nk) w' = Some [] /\
                    text_of (fst nk) w' <> text_of (fst nk) w)
    stat_nodes.
Proof.
  split; [reflexivity|]. split; [reflexivity|].
  repeat apply Forall_cons_2; try apply Forall_nil_2;
    (split; [vm_compute; reflexivity|split; [vm_compute; reflexivity|]]);
    vm_compute; discriminate.
Qed.

(** C5. On the response [{total_calls:10, hot_leads:2, booked_calls:1,
    conversion_rate:"20%"}], with the four nodes in the document, their
    text content after the handler is 10, 2, 1 and 20%: the values of the
    response, unaltered; nothing is logged. *)
Theorem C5_stats_written w :
  next_reply w stats_request = Response (Some sample_stats) ->
  Forall (fun nk => is_Some (elements w !! fst nk)) stat_nodes ->
  text_of (js "total-calls") (snd (fetchDashboardStats w)) = Some (js "10") /\
  text_of (js "hot-leads") (snd (fetchDashboardStats w)) = Some (js "2") /\
  text_of (js "booked-calls") (snd (fetchDashboardStats w)) = Some (js "1") /\
  text_of (js "conversion-rate") (snd (fetchDashboardStats w)) = Some (js "20%") /\
  console (snd (fetchDashboardStats w)) = console w.
Proof.
  intros Hr HF.
  repeat (apply Forall_cons_1 in HF as [[? ?] HF]). simpl fst in *.
  erewrite fetchDashboardStats_object; try eassumption; try reflexivity.
  unfold text_of. simpl elements.
  repeat split; now read_node.
Qed.

Lemma C5_stats_written_witness :
  let w := dashboard_page (fun _ => Response (Some sample_stats)) in
  text_of (js "total-calls") (snd (fetchDashboardStats w)) = Some (js "10") /\
  text_of (js "hot-leads") (snd (fetchDashboardStats w)) = Some (js "2") /\
  text_of (js "booked-calls") (snd (fetchDashboardStats w)) = Some (js "1") /\
  text_of (js "conversion-rate") (snd (fetchDashboardStats w)) = Some (js "20%") /\
  console (snd (fetchDashboardStats w)) = console w.
Proof.
  apply (C5_stats_written (dashboard_page (fun _ => Response (Some sample_stats)))).
  - reflexivity.
  - repeat apply Forall_cons_2; try apply Forall_nil_2;
      (eexists; vm_compute; reflexivity).
Defined.

(** ** Campaign creation *)

Lemma read_field {B} id v w (k : jsval -> M B) :
  field_value id w = Some v ->
  bind (getElementById id) (fun el => bind (get_value el) k) w = k v w.
Proof.
  unfold field_value, bind, getElementById, get_value.
  destruct (elements w !! id) as [e|] eqn:E; simpl; [|discriminate].
  rewrite E. now intros [= <-].
Qed.

(** The campaign handler, once the form is read and the server has
    answered with a JSON value. *)
Lemma campaignForm_submit_response w nm ni sc data :
  field_value (js "campaign-name") w = Some nm ->
  field_value (js "target-niche") w = Some ni ->
  field_value (js "script") w = Some sc ->
  next_reply w (create_request (formData_of nm ni sc)) = Response (Some data) ->
  let w1 := with_requests (requests w ++ [create_request (formData_of nm ni sc)])
              (with_defaultPrevented true w) in
  campaignForm_submit w =
    match Get data (js "status") with
    | Throw e => (Ok tt, with_console (console w ++ [(js "Error creating campaign:", e)]) w1)
    | Ok status =>
        if strict_eq_str status (js "success") then
          match Get data (js "campaign_id") with
          | Throw e => (Ok tt, with_console (console w ++ [(js "Error creating campaign:", e)]) w1)
          | Ok campaign_id =>
              match ToString campaign_id with
              | Throw e => (Ok tt, with_console (console w ++ [(js "Error creating campaign:", e)]) w1)
              | Ok s => (Ok tt, with_href (Some (js "/add-leads?campaign=" ++ s)) w1)
              end
          end
        else (Ok tt, w1)
    end.
Proof.
  intros H1 H2 H3 Hr w1.
  unfold campaignForm_submit.
  unfold bind at 1, preventDefault at 1.
  rewrite (read_field _ nm) by exact H1.
  rewrite (read_field _ ni) by exact H2.
  rewrite (read_field _ sc) by exact H3.
  unfold try_catch, bind at 1.
  rewrite (fetch_response _ _ (Some data)) by exact Hr.
  unfold bind, json_of, ret, lift.
  destruct (Get data (js "status")) as [status|e]; [|reflexivity].
  destruct (strict_eq_str status (js "success")); [|reflexivity].
  destruct (Get data (js "campaign_id")) as [cid|e]; [|reflexivity].
  destruct (ToString cid) as [s|e]; reflexivity.
Qed.

Lemma strict_eq_str_true v s : strict_eq_str v s = true <-> v = JStr s.
Proof.
  destruct v; simpl; try (split; [discriminate | congruence]).
  rewrite bool_decide_eq_true. split; congruence.
Qed.

Lemma strict_eq_str_false v s : v <> JStr s -> strict_eq_str v s = false.
Proof.
  intros H. destruct (strict_eq_str v s) eqn:E; [|reflexivity].
  apply strict_eq_str_true in E. contradiction.
Qed.

Lemma campaignForm_no_redirect w nm ni sc data :
  field_value (js "campaign-name") w = Some nm ->
  field_value (js "target-niche") w = Some ni ->
  field_value (js "script") w = Some sc ->
  next_reply w (create_request (formData_of nm ni sc)) = Response (Some data) ->
  Get data (js "status") <> Ok (JStr (js "success")) ->
  href (snd (campaignForm_submit w)) = href w.
Proof.
  intros H1 H2 H3 Hr Hs.
  rewrite (campaignForm_submit_response w nm ni sc data H1 H2 H3 Hr).
  destruct (Get data (js "status")) as [status|e]; [|reflexivity].
  rewrite strict_eq_str_false; [reflexivity|congruence].
Qed.

Lemma campaignForm_redirect w nm ni sc data v s :
  field_value (js "campaign-name") w = Some nm ->
  field_value (js "target-niche") w = Some ni ->
  field_value (js "script") w = Some sc ->
  next_reply w (create_request (formData_of nm ni sc)) = Response (Some data) ->
  Get data (js "status") = Ok (JStr (js "success")) ->
  Get data (js "campaign_id") = Ok v ->
  ToString v = Ok s ->
  href (snd (campaignForm_submit w)) = Some (js "/add-leads?campaign=" ++ s).
Proof.
  intros H1 H2 H3 Hr Hs Hv Ht.
  rewrite (campaignForm_submit_response w nm ni sc data H1 H2 H3 Hr).
  now rewrite Hs, Hv, Ht.
Qed.

(** C4. After a submission of the campaign form that got a parsed JSON
    response: on [{status:"success", campaign_id:"42"}] the browser is
    sent to /add-leads?campaign=42; on [{status:"error"}], and on any
    response whose status is not "success", [window.location.href] is
    not assigned. *)
Theorem C4_campaign_redirect w nm ni sc data :
  field_value (js "campaign-name") w = Some nm ->
  field_value (js "target-niche") w = Some ni ->
  field_value (js "script") w = Some sc ->
  next_reply w (create_request (formData_of nm ni sc)) = Response (Some data) ->
  (data = JObj [(js "status", JStr (js "success"));
                (js "campaign_id", JStr (js "42"))] ->
   href (snd (campaignForm_submit w)) = Some (js "/add-leads?campaign=42")) /\
  (data = JObj [(js "status", JStr (js "error"))] ->
   href (snd (campaignForm_submit w)) = href w) /\
  (Get data (js "status") <> Ok (JStr (js "success")) ->
   href (snd (campaignForm_submit w)) = href w).
Proof.
  intros H1 H2 H3 Hr. split; [|split].
  - intros ->.
    eapply (campaignForm_redirect w nm ni sc);
      [exact H1 | exact H2 | exact H3 | exact Hr | reflexivity ..].
  - intros ->.
    eapply (campaignForm_no_redirect w nm ni sc);
      [exact H1 | exact H2 | exact H3 | exact Hr | discriminate].
  - now apply (campaignForm_no_redirect w nm ni sc data).
Qed.

Lemma C4_campaign_redirect_witness :
  href (snd (campaignForm_submit
               (campaign_page
                  (fun _ => Response
                     (Some (JObj [(js "status", JStr (js "success"));
                                  (js "campaign_id", JStr (js "42"))]))))))
  = Some (js "/add-leads?campaign=42") /\
  href (snd (campaignForm_submit
               (campaign_page
                  (fun _ => Response
                     (Some (JObj [(js "status", JStr (js "error"))]))))))
  = None.
Proof.
  split.
  - apply (C4_campaign_redirect
             (campaign_page
                (fun _ => Response
                   (Some (JObj [(js "status", JStr (js "success"));
                                (js "campaign_id", JStr (js "42"))]))))
             (JStr (js "Spring")) (JStr (js "dentists")) (JStr (js "Hello"))
             (JObj [(js "status", JStr (js "success"));
                    (js "campaign_id", JStr (js "42"))]));
      try (vm_compute; reflexivity); reflexivity.
  - apply (proj1 (proj2 (C4_campaign_redirect
             (campaign_page
                (fun _ => Response
                   (Some (JObj [(js "status", JStr (js "error"))]))))
             (JStr (js "Spring")) (JStr (js "dentists")) (JStr (js "Hello"))
             (JObj [(js "status", JStr (js "error"))])
             ltac:(vm_compute; reflexivity) ltac:(vm_compute; reflexivity)
             ltac:(vm_compute; reflexivity) eq_refl))).
    reflexivity.
Defined.

(** C8. The redirect after a campaign creation is decided by the status
    of the response alone. On a JSON object whose status is "success" the
    browser is sent to /add-leads?campaign= followed by the text of the
    [campaign_id] property, whether the property is there or not: when it
    is absent the target is /add-leads?campaign=undefined. On an object
    whose status is not "success" there is no redirect, with or without
    a [campaign_id]. *)
Theorem C8_redirect_on_status_only w nm ni sc props :
  field_value (js "campaign-name") w = Some nm ->
  field_value (js "target-niche") w = Some ni ->
  field_value (js "script") w = Some sc ->
  next_reply w (create_request (formData_of nm ni sc))
    = Response (Some (JObj props)) ->
  (own (js "status") props = Some (JStr (js "success")) ->
   (own (js "campaign_id") props = None ->
    href (snd (campaignForm_submit w))
      = Some (js "/add-leads?campaign=undefined")) /\
   (forall v s,
      own (js "campaign_id") props = Some v -> ToString v = Ok s ->
      href (snd (campaignForm_submit w))
        = Some (js "/add-leads?campaign=" ++ s))) /\
  (own (js "status") props <> Some (JStr (js "success")) ->
   href (snd (campaignForm_submit w)) = href w).
Proof.
  intros H1 H2 H3 Hr. split.
  - intros Hs. split.
    + intros Hc.
      eapply (campaignForm_redirect w nm ni sc);
        [exact H1 | exact H2 | exact H3 | exact Hr | simpl ..].
      * now rewrite Hs.
      * now rewrite Hc.
      * reflexivity.
    + intros v s Hc Ht.
      eapply (campaignForm_redirect w nm ni sc);
        [exact H1 | exact H2 | exact H3 | exact Hr | simpl ..].
      * now rewrite Hs.
      * now rewrite Hc.
      * exact Ht.
  - intros Hs.
    apply (campaignForm_no_redirect w nm ni sc (JObj props)); try assumption.
    simpl. destruct (own (js "status") props) as [v|]; simpl.
    + intros [= ->]. now apply Hs.
    + discriminate.
Qed.

Lemma C8_redirect_on_status_only_witness :
  href (snd (campaignForm_submit
               (campaign_page
                  (fun _ => Response
                     (Some (JObj [(js "status", JStr (js "success"))]))))))
  = Some (js "/add-leads?campaign=undefined").
Proof.
  apply (C8_redirect_on_status_only
           (campaign_page
              (fun _ => Response
                 (Some (JObj [(js "status", JStr (js "success"))]))))
           (JStr (js "Spring")) (JStr (js "dentists")) (JStr (js "Hello"))
           [(js "status", JStr (js "success"))]);
    try (vm_compute; reflexivity); reflexivity.
Defined.

(** ** Lead upload and campaign launch *)

Lemma ToString_id_value campaignId :
  ToString (id_value campaignId) = Ok (id_text campaignId).
Proof. destruct campaignId; reflexivity. Qed.

(** [launchCampaign], by the reply to its request. *)
Lemma launchCampaign_eval campaignId w :
  let la := launch_request (id_text campaignId) in
  let w1 := with_requests (requests w ++ [la]) w in
  let log e :=
    (Ok tt, with_console (console w ++ [(js "Error launching campaign:", e)]) w1) in
  launchCampaign campaignId w =
    match next_reply w la with
    | Rejected => log FetchFailed
    | Response None => log JSONSyntaxError
    | Response (Some data) =>
        match Get data (js "status") with
        | Throw e => log e
        | Ok status =>
            if strict_eq_str status (js "started")
            then (Ok tt, with_href (Some (js "/dashboard")) w1)
            else (Ok tt, w1)
        end
    end.
Proof.
  intros la w1 log. unfold launchCampaign, try_catch.
  unfold bind at 1, lift at 1. rewrite ToString_id_value.
  unfold bind at 1. fold la.
  destruct (next_reply w la) as [|[data|]] eqn:Hr.
  - now rewrite (fetch_rejected _ _ Hr).
  - rewrite (fetch_response _ _ _ Hr). unfold bind, json_of, ret, lift.
    destruct (Get data (js "status")) as [status|e]; [|reflexivity].
    destruct (strict_eq_str status (js "started")); reflexivity.
  - now rewrite (fetch_response _ _ _ Hr).
Qed.

Lemma launchCampaign_requests campaignId w :
  requests (snd (launchCampaign campaignId w)) =
    requests w ++ [launch_request (id_text campaignId)].
Proof.
  rewrite launchCampaign_eval.
  destruct (next_reply w _) as [|[data|]]; try reflexivity.
  destruct (Get data (js "status")) as [status|e]; [|reflexivity].
  destruct (strict_eq_str status (js "started")); reflexivity.
Qed.

Lemma read_param {B} w (k : option jsstring -> M B) :
  bind (URLSearchParams_get (js "campaign")) k w = k (campaign_param w) w.
Proof. reflexivity. Qed.

(** The leads handler, once the text is read, by the reply to the upload
    request. *)
Lemma leadsForm_submit_eval w text :
  field_value (js "leads-csv") w = Some (JStr text) ->
  let up := upload_request (campaign_param w) (parseLeads text) in
  let w1 := with_requests (requests w ++ [up]) (with_defaultPrevented true w) in
  let log e :=
    (Ok tt, with_console (console w ++ [(js "Error uploading leads:", e)]) w1) in
  leadsForm_submit w =
    match next_reply w up with
    | Rejected => log FetchFailed
    | Response None => log JSONSyntaxError
    | Response (Some data) =>
        match Get data (js "status") with
        | Throw e => log e
        | Ok status =>
            if strict_eq_str status (js "success")
            then (Ok tt, snd (launchCampaign (campaign_param w) w1))
            else (Ok tt, w1)
        end
    end.
Proof.
  intros Hf up w1 log. unfold leadsForm_submit.
  unfold bind at 1, preventDefault at 1.
  rewrite read_param.
  rewrite (read_field _ (JStr text)) by exact Hf.
  unfold bind at 1, ret at 1. unfold try_catch. unfold bind at 1.
  change (campaign_param (with_defaultPrevented true w)) with (campaign_param w).
  fold up.
  destruct (next_reply w up) as [|[data|]] eqn:Hr.
  - now rewrite (fetch_rejected up (with_defaultPrevented true w) Hr).
  - rewrite (fetch_response up (with_defaultPrevented true w) _ Hr).
    unfold bind, json_of, ret, lift.
    change (with_requests (requests (with_defaultPrevented true w) ++ [up])
              (with_defaultPrevented true w)) with w1.
    destruct (Get data (js "status")) as [status|e]; [|reflexivity].
    destruct (strict_eq_str status (js "success")); [|reflexivity].
    pose proof (try_catch_log_total
                  (let! id := lift (ToString (id_value (campaign_param w))) in
                   let! response := fetch (launch_request id) in
                   let! data := json_of response in
                   let! status := lift (Get data (js "status")) in
                   if strict_eq_str status (js "started")
                   then set_location_href (js "/dashboard")
                   else ret tt)
                  (js "Error launching campaign:") w1) as Ht.
    fold (launchCampaign (campaign_param w)) in Ht.
    destruct (launchCampaign (campaign_param w) w1) as [[[]|e] w2];
      [reflexivity | discriminate].
  - now rewrite (fetch_response up (with_defaultPrevented true w) _ Hr).
Qed.

(** The page after a successful upload: the one [launchCampaign] leaves. *)
Lemma leadsForm_submit_launch w text data :
  field_value (js "leads-csv") w = Some (JStr text) ->
  next_reply w (upload_request (campaign_param w) (parseLeads text))
    = Response (Some data) ->
  Get data (js "status") = Ok (JStr (js "success")) ->
  snd (leadsForm_submit w) =
    snd (launchCampaign (campaign_param w)
           (with_requests
              (requests w ++ [upload_request (campaign_param w) (parseLeads text)])
              (with_defaultPrevented true w))).
Proof.
  intros Hf Hr Hs. rewrite (leadsForm_submit_eval w text Hf), Hr, Hs.
  reflexivity.
Qed.

(** C6, amended. After an upload answered with status "success" the
    handler issues a POST to /api/campaign/<id>/launch. If the launch
    answers with status "started" the browser is sent to /dashboard. If
    the launch request is rejected or its body is not JSON, the failure
    is logged and there is no redirect. If the launch answers with any
    other status there is no redirect and nothing is logged. *)
Theorem C6_upload_then_launch w text data :
  field_value (js "leads-csv") w = Some (JStr text) ->
  next_reply w (upload_request (campaign_param w) (parseLeads text))
    = Response (Some data) ->
  Get data (js "status") = Ok (JStr (js "success")) ->
  let up := upload_request (campaign_param w) (parseLeads text) in
  let la := launch_request (id_text (campaign_param w)) in
  let w' := snd (leadsForm_submit w) in
  requests w' = requests w ++ [up; la] /\
  method la = js "POST" /\
  url la = js "/api/campaign/" ++ id_text (campaign_param w) ++ js "/launch" /\
  (forall d,
     network w (requests w ++ [up; la]) = Response (Some d) ->
     Get d (js "status") = Ok (JStr (js "started")) ->
     href w' = Some (js "/dashboard")) /\
  (network w (requests w ++ [up; la]) = Rejected \/
   network w (requests w ++ [up; la]) = Response None ->
   href w' = href w /\
   exists error,
     console w' = console w ++ [(js "Error launching campaign:", error)]) /\
  (forall d status,
     network w (requests w ++ [up; la]) = Response (Some d) ->
     Get d (js "status") = Ok status -> status <> JStr (js "started") ->
     href w' = href w /\ console w' = console w).
Proof.
  intros Hf Hr Hs up la w'.
  assert (Hw : w' = snd (launchCampaign (campaign_param w)
                           (with_requests (requests w ++ [up])
                              (with_defaultPrevented true w))))
    by exact (leadsForm_submit_launch w text data Hf Hr Hs).
  assert (Hn : next_reply (with_requests (requests w ++ [up])
                             (with_defaultPrevented true w)) la
               = network w (requests w ++ [up; la])).
  { unfold next_reply. simpl requests. now rewrite <- app_assoc. }
  split; [|split; [reflexivity|split; [reflexivity|]]].
  - rewrite Hw, launchCampaign_requests. simpl. now rewrite <- app_assoc.
  - rewrite Hw, launchCampaign_eval. fold la. rewrite Hn.
    split; [|split].
    + intros d -> ->. reflexivity.
    + intros [-> | ->]; simpl; eauto.
    + intros d status -> -> Hst. now rewrite (strict_eq_str_false _ _ Hst).
Qed.

Lemma C6_upload_then_launch_witness :
  let ok := Response (Some (JObj [(js "status", JStr (js "success"))])) in
  let started := Response (Some (JObj [(js "status", JStr (js "started"))])) in
  let w := leads_page [(js "campaign", js "7")] (js "Alice, 555-1111")
             (two_replies ok started) in
  List.map url (requests (snd (leadsForm_submit w)))
    = [js "/api/leads/upload"; js "/api/campaign/7/launch"] /\
  href (snd (leadsForm_submit w)) = Some (js "/dashboard").
Proof.
  intros ok started w.
  destruct (C6_upload_then_launch w (js "Alice, 555-1111")
              (JObj [(js "status", JStr (js "success"))])
              ltac:(vm_compute; reflexivity) eq_refl eq_refl)
    as (Hreq & _ & _ & Hstarted & _).
  split.
  - rewrite Hreq. reflexivity.
  - apply (Hstarted (JObj [(js "status", JStr (js "started"))])); reflexivity.
Defined.

(** C6 as stated fails where the launch answers with another status:
    after a successful upload and the launch answer [{status:"error"}],
    both requests were issued, there is no redirect, and nothing at all
    was logged. *)
Lemma C6_other_status_counterexample :
  let ok := Response (Some (JObj [(js "status", JStr (js "success"))])) in
  let refused := Response (Some (JObj [(js "status", JStr (js "error"))])) in
  let w := leads_page [(js "campaign", js "7")] (js "Alice, 555-1111")
             (two_replies ok refused) in
  List.map url (requests (snd (leadsForm_submit w)))
    = [js "/api/leads/upload"; js "/api/campaign/7/launch"] /\
  network w (requests (snd (leadsForm_submit w))) = refused /\
  href (snd (leadsForm_submit w)) = None /\
  console (snd (leadsForm_submit w)) = [].
Proof. vm_compute. repeat split. Qed.

(** The upload request is issued whatever the parsed list and whatever
    the query string are. *)
Lemma leadsForm_submit_uploads w text :
  field_value (js "leads-csv") w = Some (JStr text) ->
  exists rest,
    requests (snd (leadsForm_submit w)) =
      requests w ++ upload_request (campaign_param w) (parseLeads text) :: rest.
Proof.
  intros Hf. rewrite (leadsForm_submit_eval w text Hf).
  destruct (next_reply w _) as [|[data|]]; try (now exists []).
  destruct (Get data (js "status")) as [status|e]; [|now exists []].
  destruct (strict_eq_str status (js "success")); [|now exists []].
  exists [launch_request (id_text (campaign_param w))].
  simpl snd. rewrite launchCampaign_requests. simpl. now rewrite <- app_assoc.
Qed.

(** C9. The empty text has exactly one line, which is dropped, and its
    lead list is empty; a text all of whose lines are dropped has an
    empty lead list. When the lead list is empty the handler still issues
    the POST to /api/leads/upload, whose body carries the campaign
    identifier and an empty [leads] array. *)
Theorem C9_empty_leads_still_uploaded :
  (lines [] = [[]] /\ keep (parse_line []) = false /\ parseLeads [] = []) /\
  (forall text,
     Forall (fun line => keep (parse_line line) = false) (lines text) ->
     parseLeads text = []) /\
  (forall w text,
     field_value (js "leads-csv") w = Some (JStr text) ->
     parseLeads text = [] ->
     let up := upload_request (campaign_param w) [] in
     (exists rest, requests (snd (leadsForm_submit w)) = requests w ++ up :: rest) /\
     url up = js "/api/leads/upload" /\
     method up = js "POST" /\
     body up =
       Some (js "{" ++ QuoteJSONString (js "campaignId") ++ js ":"
             ++ default (js "null") (JSON_stringify (id_value (campaign_param w)))
             ++ js "," ++ QuoteJSONString (js "leads") ++ js ":[]}")).
Proof.
  split; [repeat split|]. split.
  - intros text. unfold parseLeads.
    induction (lines text) as [|line ls IH]; intros HF; [reflexivity|].
    apply Forall_cons_1 in HF as [Hd HF]. simpl. rewrite Hd. now apply IH.
  - intros w text Hf He up. split; [|split; [reflexivity|split; [reflexivity|]]].
    + unfold up. rewrite <- He. now apply leadsForm_submit_uploads.
    + unfold up, upload_request. simpl body.
      destruct (campaign_param w) as [id|]; simpl; f_equal; f_equal.
      unfold QuoteJSONString. simpl. now rewrite <- !app_assoc.
Qed.

Lemma C9_empty_leads_still_uploaded_witness :
  let w := leads_page [(js "campaign", js "7")] (js "JustAName")
             (fun _ => Rejected) in
  (exists rest,
     requests (snd (leadsForm_submit w)) =
       requests w ++ upload_request (Some (js "7")) [] :: rest) /\
  body (upload_request (Some (js "7")) []) =
    Some (js "{" ++ QuoteJSONString (js "campaignId") ++ js ":"
          ++ QuoteJSONString (js "7")
          ++ js "," ++ QuoteJSONString (js "leads") ++ js ":[]}").
Proof.
  intros w.
  destruct (proj2 (proj2 C9_empty_leads_still_uploaded) w (js "JustAName")
              ltac:(vm_compute; reflexivity) eq_refl)
    as (Hreq & _ & _ & Hbody).
  split; [exact Hreq | exact Hbody].
Defined.

Lemma campaign_param_absent w :
  ~ In (js "campaign") (List.map fst (search w)) -> campaign_param w = None.
Proof.
  unfold campaign_param. induction (search w) as [|[k v] l IH]; simpl; intros H.
  - reflexivity.
  - rewrite bool_decide_eq_false_2 by (intros ->; apply H; now left).
    apply IH. intros Hin. apply H. now right.
Qed.

(** C10. The campaign identifier is read from the query string and used
    as it is, a string or [null]: it goes into the body of the upload
    request and, after an upload answered with status "success", into
    the URL of the launch request. When the query string has no
    [campaign] parameter the identifier is [null]: the body holds [null]
    for [campaignId] and the launch request goes to
    /api/campaign/null/launch. *)
Theorem C10_absent_campaign_is_null w text :
  field_value (js "leads-csv") w = Some (JStr text) ->
  let campaignId := campaign_param w in
  let up := upload_request campaignId (parseLeads text) in
  let la := launch_request (id_text campaignId) in
  (exists rest, requests (snd (leadsForm_submit w)) = requests w ++ up :: rest) /\
  (forall data,
     next_reply w up = Response (Some data) ->
     Get data (js "status") = Ok (JStr (js "success")) ->
     requests (snd (leadsForm_submit w)) = requests w ++ [up; la]) /\
  (~ In (js "campaign") (List.map fst (search w)) ->
   campaignId = None /\
   body up =
     Some (js "{" ++ QuoteJSONString (js "campaignId") ++ js ":null,"
           ++ QuoteJSONString (js "leads") ++ js ":"
           ++ default (js "null")
                (JSON_stringify (JArr (List.map lead_value (parseLeads text))))
           ++ js "}") /\
   url la = js "/api/campaign/null/launch" /\ method la = js "POST").
Proof.
  intros Hf campaignId up la. split; [|split].
  - now apply leadsForm_submit_uploads.
  - intros data Hr Hs.
    rewrite (leadsForm_submit_launch w text data Hf Hr Hs).
    rewrite launchCampaign_requests. simpl. now rewrite <- app_assoc.
  - intros Ha. pose proof (campaign_param_absent w Ha) as Hc.
    unfold la, up, campaignId. rewrite Hc. repeat split.
Qed.

Lemma C10_absent_campaign_is_null_witness :
  let ok := Response (Some (JObj [(js "status", JStr (js "success"))])) in
  let w := leads_page [] (js "Alice, 555-1111") (two_replies ok Rejected) in
  List.map url (requests (snd (leadsForm_submit w)))
    = [js "/api/leads/upload"; js "/api/campaign/null/launch"] /\
  campaign_param w = None.
Proof.
  intros ok w.
  destruct (C10_absent_campaign_is_null w (js "Alice, 555-1111")
              ltac:(vm_compute; reflexivity))
    as (_ & Hlaunch & Habsent).
  split.
  - rewrite (Hlaunch (JObj [(js "status", JStr (js "success"))]) eq_refl eq_refl).
    reflexivity.
  - exact (proj1 (Habsent ltac:(simpl; tauto))).
Defined.

(** ** Smooth scrolling *)

(** A click on an anchor whose fragment is a plain identifier that no
    element of the document has: the default jump is suppressed, nothing
    is scrolled and nothing is thrown. *)
Lemma anchor_click_missing_id id w :
  plain_ident id = true ->
  elements w !! id = None ->
  anchor_click (35 :: id) w = (Ok tt, with_defaultPrevented true w).
Proof.
  intros Hp He. unfold anchor_click, bind, preventDefault, querySelector.
  destruct id as [|c id]; [discriminate|].
  rewrite Hp.
  change (elements (with_defaultPrevented true w)) with (elements w).
  now rewrite He.
Qed.

(** The example of the specification: href [#missing], no element with
    the id [missing]. *)
Lemma anchor_click_missing_example w :
  elements w !! js "missing" = None ->
  anchor_click (js "#missing") w = (Ok tt, with_defaultPrevented true w) /\
  scrolled (snd (anchor_click (js "#missing") w)) = scrolled w.
Proof.
  intros He.
  pose proof (anchor_click_missing_id (js "missing") w eq_refl He) as H.
  change (35 :: js "missing") with (js "#missing") in H.
  rewrite H. split; reflexivity.
Qed.

(** C7, at the failing inputs. A click on an anchor whose href is a bare
    [#], or [#2024] in a document with no such id: fragments that match
    no element. The default jump is suppressed, and then [querySelector]
    throws on the invalid selector; the error escapes the handler, which
    has no [try]. *)
Theorem C7_invalid_selector_throws w :
  anchor_click (js "#") w
    = (Throw InvalidSelector, with_defaultPrevented true w) /\
  anchor_click (js "#2024") w
    = (Throw InvalidSelector, with_defaultPrevented true w).
Proof. split; reflexivity. Qed.

(** ** More on the runtime functions *)

Lemma split_app_distr sep a b :
  split sep (a ++ sep :: b) = split sep a ++ split sep b.
Proof.
  induction a as [|c a IH]; simpl.
  - now rewrite N.eqb_refl.
  - destruct (N.eqb_spec c sep) as [->|_].
    + now rewrite IH.
    + rewrite IH. pose proof (split_nonempty sep a) as Hne.
      now destruct (split sep a).
Qed.

Lemma trimStart_idem s : trimStart (trimStart s) = trimStart s.
Proof.
  induction s as [|c s IH]; simpl; [reflexivity|].
  destruct (isStrWhiteSpaceChar c) eqn:E; [exact IH|].
  simpl. now rewrite E.
Qed.

Lemma trimStart_snoc s c :
  isStrWhiteSpaceChar c = false -> trimStart (s ++ [c]) = trimStart s ++ [c].
Proof.
  intros Hc. induction s as [|d s IH]; simpl.
  - now rewrite Hc.
  - destruct (isStrWhiteSpaceChar d); [exact IH | reflexivity].
Qed.

Lemma trimStart_app_space s u :
  trimStart s = [] -> trimStart (s ++ u) = trimStart u.
Proof.
  induction s as [|d s IH]; simpl; [reflexivity|].
  destruct (isStrWhiteSpaceChar d); [exact IH | discriminate].
Qed.

Lemma trimStart_app_text s u :
  trimStart s <> [] -> trimStart (s ++ u) = trimStart s ++ u.
Proof.
  induction s as [|d s IH]; simpl; [congruence|].
  destruct (isStrWhiteSpaceChar d); [exact IH | reflexivity].
Qed.

Lemma trimEnd_cons s c :
  isStrWhiteSpaceChar c = false -> trimEnd (c :: s) = c :: trimEnd s.
Proof.
  intros Hc. unfold trimEnd. simpl.
  now rewrite (trimStart_snoc _ _ Hc), rev_unit.
Qed.

Lemma trimEnd_snoc_space s c :
  isStrWhiteSpaceChar c = true -> trimEnd (s ++ [c]) = trimEnd s.
Proof.
  intros Hc. unfold trimEnd. rewrite rev_unit. simpl. now rewrite Hc.
Qed.

(** The result of [trim] starts and ends with no white space. *)
Lemma trimStart_trim s : trimStart (trim s) = trim s.
Proof.
  unfold trim.
  assert (H : forall x, trimStart x = x -> trimStart (trimEnd x) = trimEnd x).
  { intros [|c x] Hx; [reflexivity|].
    simpl in Hx. destruct (isStrWhiteSpaceChar c) eqn:E.
    - exfalso. assert (Hl : (length (trimStart x) <= length x)%nat).
      { clear. induction x as [|d x IH]; simpl; [lia|].
        destruct (isStrWhiteSpaceChar d); simpl; lia. }
      rewrite Hx in Hl. simpl in Hl. lia.
    - rewrite (trimEnd_cons _ _ E). simpl. now rewrite E. }
  apply H, trimStart_idem.
Qed.

Lemma trim_idem s : trim (trim s) = trim s.
Proof.
  unfold trim at 1. rewrite trimStart_trim.
  unfold trim, trimEnd. now rewrite rev_involutive, trimStart_idem.
Qed.

Lemma trim_cons_space c s :
  isStrWhiteSpaceChar c = true -> trim (c :: s) = trim s.
Proof. intros Hc. unfold trim. simpl. now rewrite Hc. Qed.

Lemma trim_snoc_space s c :
  isStrWhiteSpaceChar c = true -> trim (s ++ [c]) = trim s.
Proof.
  intros Hc. unfold trim.
  destruct (trimStart s) as [|d x] eqn:E.
  - rewrite (trimStart_app_space _ _ E). simpl. now rewrite Hc.
  - rewrite trimStart_app_text by congruence. rewrite E.
    now apply trimEnd_snoc_space.
Qed.

Lemma In_trimStart c s : In c (trimStart s) -> In c s.
Proof.
  induction s as [|d s IH]; simpl; [tauto|].
  destruct (isStrWhiteSpaceChar d); [auto | tauto].
Qed.

Lemma In_trim c s : In c (trim s) -> In c s.
Proof.
  unfold trim, trimEnd. intros H.
  apply in_rev, In_trimStart in H. apply in_rev in H.
  now apply In_trimStart.
Qed.

(** ** More on the lead parser *)

Lemma parseLeads_app a b :
  parseLeads (a ++ LF :: b) = parseLeads a ++ parseLeads b.
Proof.
  unfold parseLeads, lines.
  now rewrite split_app_distr, List.map_app, List.filter_app.
Qed.

Lemma parseLeads_one_line line :
  ~ In LF line ->
  parseLeads line = if keep (parse_line line) then [parse_line line] else [].
Proof.
  intros H. unfold parseLeads, lines. now rewrite (split_no_sep _ _ H).
Qed.

(** The tokens of a string with one more code unit, not the separator,
    at its end: the last token gets it. *)
Lemma split_snoc sep s c :
  c <> sep ->
  exists ts t, split sep s = ts ++ [t] /\
               split sep (s ++ [c]) = ts ++ [t ++ [c]].
Proof.
  intros Hc. induction s as [|d s (ts & t & E1 & E2)]; simpl.
  - exists [], []. destruct (N.eqb_spec c sep); [congruence|]. now split.
  - destruct (N.eqb_spec d sep) as [->|_].
    + exists ([] :: ts), t. now rewrite E1, E2.
    + rewrite E1, E2. destruct ts as [|t0 ts]; simpl.
      * exists [], (d :: t). now split.
      * exists ((d :: t0) :: ts), t. now split.
Qed.

Lemma space_not_comma c : isStrWhiteSpaceChar c = true -> c <> COMMA.
Proof. intros H ->. discriminate. Qed.

Lemma parse_line_snoc_space line c :
  isStrWhiteSpaceChar c = true -> parse_line (line ++ [c]) = parse_line line.
Proof.
  intros Hc. unfold parse_line.
  destruct (split_snoc COMMA line c (space_not_comma c Hc)) as (ts & t & E1 & E2).
  rewrite E1, E2.
  destruct ts as [|t0 [|t1 ts]]; simpl; try reflexivity;
    now rewrite (trim_snoc_space _ _ Hc).
Qed.

Lemma parse_line_cons_space c line :
  isStrWhiteSpaceChar c = true -> parse_line (c :: line) = parse_line line.
Proof.
  intros Hc. unfold parse_line. simpl split.
  destruct (N.eqb_spec c COMMA) as [E|_]; [now apply space_not_comma in E|].
  pose proof (split_nonempty COMMA line) as Hne.
  destruct (split COMMA line) as [|t0 ts]; [congruence|]. simpl.
  now rewrite (trim_cons_space _ _ Hc).
Qed.

Lemma parseLeads_snoc_space text c :
  isStrWhiteSpaceChar c = true -> c <> LF ->
  parseLeads (text ++ [c]) = parseLeads text.
Proof.
  intros Hc Hn. unfold parseLeads, lines.
  destruct (split_snoc LF text c Hn) as (ts & t & E1 & E2).
  rewrite E1, E2, !List.map_app. simpl.
  now rewrite (parse_line_snoc_space _ _ Hc).
Qed.

(** A kept line gives clean fields. *)
Lemma parse_line_clean line :
  ~ In LF line -> keep (parse_line line) = true ->
  clean (name (parse_line line)) /\ clean (phone (parse_line line)).
Proof.
  intros Hlf Hk. apply keep_has_lead in Hk.
  destruct Hk as (t1 & t2 & tail & -> & H1 & H2 & _ & Hn & Hp & ->). simpl.
  assert (Hl1 : ~ In LF t1) by (intros H; apply Hlf, in_or_app; now left).
  assert (Hl2 : ~ In LF t2).
  { intros H. apply Hlf, in_or_app. right. right. apply in_or_app. now left. }
  split; eexists; (split; [reflexivity|]);
    (split; [assumption|]); (split; [apply trim_idem|]);
    split; intros H; apply In_trim in H; contradiction.
Qed.

(** A lead with clean fields, written back as a line, parses to itself. *)
Lemma parseLeads_lead_line l :
  clean (name l) -> clean (phone l) -> parseLeads (lead_line l) = [l].
Proof.
  destruct l as [n p].
  intros (s1 & E1 & Hn1 & Ht1 & Hc1 & Hl1) (s2 & E2 & Hn2 & Ht2 & Hc2 & Hl2).
  simpl in E1, E2. subst n p. unfold lead_line. simpl.
  rewrite parseLeads_one_line.
  - assert (E : parse_line (s1 ++ COMMA :: s2)
                = {| name := Some s1; phone := Some s2 |}).
    { destruct (split_two_tokens s1 s2 [] Hc1 Hc2 (or_introl eq_refl)) as [rest E].
      rewrite app_nil_r in E. unfold parse_line. rewrite E. simpl.
      now rewrite Ht1, Ht2. }
    rewrite E. unfold keep. simpl.
    destruct s1; [congruence|]. destruct s2; [congruence|]. reflexivity.
  - intros H. apply in_app_or in H as [H|[H|H]]; [contradiction| |contradiction].
    discriminate.
Qed.

(** X1. The parser works line by line: the leads of two texts joined by
    a line feed are the leads of the first followed by the leads of the
    second. *)
Theorem parseLeads_concat a b :
  parseLeads (a ++ [LF] ++ b) = parseLeads a ++ parseLeads b.
Proof. apply parseLeads_app. Qed.

(** X2. Lines that cannot be a lead leave no trace: a line feed at the
    end or at the start of the text, and a line without a comma anywhere
    between two lines, change nothing to the parsed list. *)
Theorem parseLeads_skips_junk text :
  parseLeads (text ++ [LF]) = parseLeads text /\
  parseLeads (LF :: text) = parseLeads text /\
  (forall junk rest,
     ~ In LF junk -> ~ In COMMA junk ->
     parseLeads (text ++ LF :: junk ++ LF :: rest)
       = parseLeads (text ++ LF :: rest)).
Proof.
  split; [|split].
  - rewrite parseLeads_app. change (parseLeads []) with (@nil lead).
    apply app_nil_r.
  - apply (parseLeads_app [] text).
  - intros junk rest Hl Hc.
    rewrite !parseLeads_app, (parseLeads_one_line junk Hl).
    unfold keep, parse_line. rewrite (split_no_sep _ _ Hc). simpl.
    now rewrite andb_false_r.
Qed.

Lemma parseLeads_skips_junk_witness :
  parseLeads (js "Alice,1" ++ LF :: js "name and phone" ++ LF :: js "Bob,2")
    = parseLeads (js "Alice,1" ++ LF :: js "Bob,2").
Proof.
  apply (parseLeads_skips_junk (js "Alice,1")).
  - vm_compute. intuition discriminate.
  - vm_compute. intuition discriminate.
Defined.

(** X3. Every lead of the parsed list is clean: its name and its phone
    are strings, not empty, with no white space at either end, and hold
    no comma and no line feed. *)
Theorem parseLeads_clean text l :
  In l (parseLeads text) -> clean (name l) /\ clean (phone l).
Proof.
  unfold parseLeads. intros H.
  apply List.filter_In in H as [H Hk].
  apply List.in_map_iff in H as (line & <- & Hin).
  apply parse_line_clean; [|exact Hk].
  pose proof (split_tokens_no_sep LF text) as HF.
  rewrite List.Forall_forall in HF. now apply HF.
Qed.

Lemma parseLeads_clean_witness :
  clean (Some (js "Alice")) /\ clean (Some (js "555-1111")).
Proof.
  apply (parseLeads_clean example_text
           {| name := Some (js "Alice"); phone := Some (js "555-1111") |}).
  left. reflexivity.
Defined.

(** X4. Writing leads back and parsing again gives the same leads: a list
    of clean leads, written one per line as name, comma, phone, parses
    to itself; so parsing the written form of a parsed list gives that
    list again. *)
Theorem parseLeads_leads_text :
  (forall leads,
     Forall (fun l => clean (name l) /\ clean (phone l)) leads ->
     parseLeads (leads_text leads) = leads) /\
  (forall text, parseLeads (leads_text (parseLeads text)) = parseLeads text).
Proof.
  assert (H : forall leads,
             Forall (fun l => clean (name l) /\ clean (phone l)) leads ->
             parseLeads (leads_text leads) = leads).
  { unfold leads_text. induction leads as [|l leads IH]; intros HF.
    - reflexivity.
    - apply Forall_cons_1 in HF as [[Hn Hp] HF].
      destruct leads as [|l' leads].
      + simpl. now apply parseLeads_lead_line.
      + change (join [LF] (List.map lead_line (l :: l' :: leads)))
          with (lead_line l ++ LF :: join [LF] (List.map lead_line (l' :: leads))).
        rewrite parseLeads_app, (IH HF), parseLeads_lead_line by assumption.
        reflexivity. }
  split; [exact H|].
  intros text. apply H. rewrite List.Forall_forall. intros l Hl.
  unfold parseLeads in Hl.
  apply List.filter_In in Hl as [Hl Hk].
  apply List.in_map_iff in Hl as (line & <- & Hin).
  apply parse_line_clean; [|exact Hk].
  pose proof (split_tokens_no_sep LF text) as HF.
  rewrite List.Forall_forall in HF. now apply HF.
Qed.

Lemma parseLeads_leads_text_witness :
  parseLeads (js "Ann,1" ++ LF :: js "Ben,2")
    = [ {| name := Some (js "Ann"); phone := Some (js "1") |};
        {| name := Some (js "Ben"); phone := Some (js "2") |} ].
Proof.
  apply (proj1 parseLeads_leads_text
           [ {| name := Some (js "Ann"); phone := Some (js "1") |};
             {| name := Some (js "Ben"); phone := Some (js "2") |} ]).
  repeat apply Forall_cons_2; try apply Forall_nil_2;
    (split; eexists; (split; [reflexivity|]);
     repeat split; try discriminate; try reflexivity;
     vm_compute; intuition discriminate).
Defined.

(** X5. White space around a line does not matter, nor do Windows line
    ends: a white-space code unit added at the start or at the end of a
    line leaves its lead as it was, and a text whose lines are joined by
    CR LF has the leads of the same lines joined by LF. *)
Theorem parseLeads_line_ends :
  (forall line c,
     isStrWhiteSpaceChar c = true ->
     parse_line (line ++ [c]) = parse_line line /\
     parse_line (c :: line) = parse_line line) /\
  (forall ls, parseLeads (join [13; LF] ls) = parseLeads (join [LF] ls)).
Proof.
  split.
  - intros line c Hc. split;
      [now apply parse_line_snoc_space | now apply parse_line_cons_space].
  - induction ls as [|l ls IH]; [reflexivity|].
    destruct ls as [|l' ls]; [reflexivity|].
    change (join [13; LF] (l :: l' :: ls))
      with (l ++ [13] ++ LF :: join [13; LF] (l' :: ls)).
    change (join [LF] (l :: l' :: ls))
      with (l ++ LF :: join [LF] (l' :: ls)).
    rewrite app_assoc, !parseLeads_app, IH.
    now rewrite parseLeads_snoc_space.
Qed.

Lemma parseLeads_line_ends_witness :
  parse_line (js "Alice, 555-1111" ++ [13]) = parse_line (js "Alice, 555-1111").
Proof.
  apply (proj1 parseLeads_line_ends (js "Alice, 555-1111") 13).
  reflexivity.
Defined.

(** ** More on the dashboard statistics *)

Lemma with_elements_same w : with_elements (elements w) w = w.
Proof. now destruct w. Qed.

Lemma same_but_text_refl nodes els : same_but_text nodes els els.
Proof. split; reflexivity. Qed.

Lemma same_but_text_trans nodes els1 els2 els3 :
  same_but_text nodes els1 els2 -> same_but_text nodes els2 els3 ->
  same_but_text nodes els1 els3.
Proof.
  intros [A1 B1] [A2 B2]. split; intros id.
  - intros H. now rewrite A2, A1.
  - now rewrite B2, B1.
Qed.

Lemma same_but_text_write nodes els id e s :
  In id nodes -> els !! id = Some e ->
  same_but_text nodes els (<[id := {| textContent := s; value := value e |}]> els).
Proof.
  intros Hin He. split; intros id'.
  - intros Hn. apply lookup_insert_ne. intros <-. contradiction.
  - destruct (decide (id = id')) as [<-|Hne].
    + now rewrite lookup_insert_eq, He.
    + now rewrite lookup_insert_ne.
Qed.

(** One write of the statistics handler changes at most the text of its
    node. *)
Lemma write_stat_shape nodes id k stats w :
  In id nodes ->
  exists els,
    snd (write_stat id k stats w) = with_elements els w /\
    same_but_text nodes (elements w) els.
Proof.
  intros Hin.
  assert (Hsame : exists els, w = with_elements els w /\
                              same_but_text nodes (elements w) els).
  { exists (elements w). split;
      [symmetry; apply with_elements_same | apply same_but_text_refl]. }
  unfold write_stat, bind, getElementById, lift, set_textContent.
  destruct (elements w !! id) as [e|] eqn:He.
  - destruct (Get stats k) as [v|err]; [|exact Hsame].
    rewrite He. destruct (text_value v) as [s|err]; [|exact Hsame].
    eexists. split; [reflexivity|]. now apply same_but_text_write.
  - destruct (Get stats k) as [v|err]; exact Hsame.
Qed.

Lemma write_stat_missing id k stats v w :
  elements w !! id = None -> Get stats k = Ok v ->
  write_stat id k stats w = (Throw TypeError, w).
Proof.
  intros He Hv. unfold write_stat, bind, getElementById, lift, set_textContent.
  now rewrite He, Hv.
Qed.

Lemma write_stat_null id k w :
  write_stat id k JNull w = (Throw TypeError, w).
Proof.
  unfold write_stat, bind, getElementById, lift. simpl.
  now destruct (elements w !! id).
Qed.

(** The four writes, on any value whose fields convert to text. *)
Lemma fetchDashboardStats_values w stats v1 v2 v3 v4 e1 e2 e3 e4 s1 s2 s3 s4 :
  next_reply w stats_request = Response (Some stats) ->
  elements w !! js "total-calls" = Some e1 ->
  elements w !! js "hot-leads" = Some e2 ->
  elements w !! js "booked-calls" = Some e3 ->
  elements w !! js "conversion-rate" = Some e4 ->
  Get stats (js "total_calls") = Ok v1 -> text_value v1 = Ok s1 ->
  Get stats (js "hot_leads") = Ok v2 -> text_value v2 = Ok s2 ->
  Get stats (js "booked_calls") = Ok v3 -> text_value v3 = Ok s3 ->
  Get stats (js "conversion_rate") = Ok v4 -> text_value v4 = Ok s4 ->
  fetchDashboardStats w =
    (Ok tt,
     with_elements
       (<[js "conversion-rate" := {| textContent := s4; value := value e4 |}]>
          (<[js "booked-calls" := {| textContent := s3; value := value e3 |}]>
             (<[js "hot-leads" := {| textContent := s2; value := value e2 |}]>
                (<[js "total-calls" := {| textContent := s1; value := value e1 |}]>
                   (elements w)))))
       (with_requests (requests w ++ [stats_request]) w)).
Proof.
  intros Hr H1 H2 H3 H4 G1 T1 G2 T2 G3 T3 G4 T4.
  unfold fetchDashboardStats, try_catch.
  unfold bind at 1. rewrite (fetch_response _ _ _ Hr).
  unfold bind at 1. unfold json_of at 1, ret at 1.
  unfold bind at 1.
  erewrite write_stat_ok; [|exact H1|exact G1|exact T1].
  unfold bind at 1.
  erewrite write_stat_ok;
    [|simpl elements; rewrite lookup_insert_ne by done; exact H2|exact G2|exact T2].
  unfold bind at 1.
  erewrite write_stat_ok;
    [|simpl elements; rewrite !lookup_insert_ne by done; exact H3|exact G3|exact T3].
  erewrite write_stat_ok;
    [|simpl elements; rewrite !lookup_insert_ne by done; exact H4|exact G4|exact T4].
  reflexivity.
Qed.

(** The page after the statistics handler, whatever the reply. *)
Lemma fetchDashboardStats_shape w :
  exists els log,
    snd (fetchDashboardStats w) =
      with_console (console w ++ log)
        (with_elements els
           (with_requests (requests w ++ [stats_request]) w)) /\
    (length log <= 1)%nat /\
    same_but_text (List.map fst stat_nodes) (elements w) els /\
    method stats_request = js "GET" /\ body stats_request = None /\
    url stats_request = js "/api/user/stats".
Proof.
  set (nodes := List.map fst stat_nodes).
  set (w1 := with_requests (requests w ++ [stats_request]) w).
  assert (Hlog : forall o els,
            same_but_text nodes (elements w) els ->
            exists els' log,
              snd (match o with
                   | Ok a => (Ok a, with_elements els w1)
                   | Throw err =>
                       console_error (js "Error fetching stats:") err
                         (with_elements els w1)
                   end : outcome unit * world) =
                with_console (console w ++ log) (with_elements els' w1) /\
              (length log <= 1)%nat /\
              same_but_text nodes (elements w) els' /\
              method stats_request = js "GET" /\ body stats_request = None /\
              url stats_request = js "/api/user/stats").
  { intros [[]|err] els Hs.
    - exists els, []. rewrite app_nil_r. repeat split; try apply Hs. simpl. lia.
    - exists els, [(js "Error fetching stats:", err)].
      repeat split; try apply Hs. simpl. lia. }
  unfold fetchDashboardStats, try_catch. unfold bind at 1.
  destruct (next_reply w stats_request) as [|[stats|]] eqn:Hr.
  - rewrite (fetch_rejected _ _ Hr). fold w1.
    exact (Hlog (Throw FetchFailed) (elements w) (same_but_text_refl _ _)).
  - rewrite (fetch_response _ _ _ Hr). fold w1.
    unfold bind at 1, json_of at 1, ret at 1.
    unfold bind.
    destruct (write_stat_shape nodes (js "total-calls") (js "total_calls") stats w1)
      as (els1 & E1 & S1); [simpl; tauto|].
    destruct (write_stat (js "total-calls") (js "total_calls") stats w1)
      as [[[]|err] w2]; simpl in E1; subst w2;
      [|now apply (Hlog (Throw err) els1)].
    destruct (write_stat_shape nodes (js "hot-leads") (js "hot_leads") stats
                (with_elements els1 w1)) as (els2 & E2 & S2); [simpl; tauto|].
    simpl elements in S2. pose proof (same_but_text_trans _ _ _ _ S1 S2) as S12.
    destruct (write_stat (js "hot-leads") (js "hot_leads") stats _)
      as [[[]|err] w3]; simpl in E2; subst w3;
      [|now apply (Hlog (Throw err) els2)].
    destruct (write_stat_shape nodes (js "booked-calls") (js "booked_calls") stats
                (with_elements els2 (with_elements els1 w1)))
      as (els3 & E3 & S3); [simpl; tauto|].
    simpl elements in S3. pose proof (same_but_text_trans _ _ _ _ S12 S3) as S13.
    destruct (write_stat (js "booked-calls") (js "booked_calls") stats _)
      as [[[]|err] w4]; simpl in E3; subst w4;
      [|now apply (Hlog (Throw err) els3)].
    destruct (write_stat_shape nodes (js "conversion-rate") (js "conversion_rate")
                stats (with_elements els3 (with_elements els2 (with_elements els1 w1))))
      as (els4 & E4 & S4); [simpl; tauto|].
    simpl elements in S4. pose proof (same_but_text_trans _ _ _ _ S13 S4) as S14.
    destruct (write_stat (js "conversion-rate") (js "conversion_rate") stats _)
      as [[[]|err] w5]; simpl in E4; subst w5.
    + now apply (Hlog (Ok tt) els4).
    + now apply (Hlog (Throw err) els4).
  - rewrite (fetch_response _ _ _ Hr). fold w1.
    unfold bind at 1, json_of at 1, throw at 1.
    exact (Hlog (Throw JSONSyntaxError) (elements w) (same_but_text_refl _ _)).
Qed.


(** X7. The four nodes are written one after the other, not all or
    none: when the total-calls node is in the document and the hot-leads
    node is not, on a JSON object reply the total is written, the
    [TypeError] of the missing node is logged, and the nodes that come
    after keep their text. *)
Theorem fetchDashboardStats_partial w props e1 s1 :
  next_reply w stats_request = Response (Some (JObj props)) ->
  elements w !! js "total-calls" = Some e1 ->
  text_value (default JUndefined (own (js "total_calls") props)) = Ok s1 ->
  elements w !! js "hot-leads" = None ->
  fetchDashboardStats w =
    (Ok tt,
     with_console (console w ++ [(js "Error fetching stats:", TypeError)])
       (with_elements
          (<[js "total-calls" := {| textContent := s1; value := value e1 |}]>
             (elements w))
          (with_requests (requests w ++ [stats_request]) w))) /\
  text_of (js "total-calls") (snd (fetchDashboardStats w)) = Some s1 /\
  text_of (js "booked-calls") (snd (fetchDashboardStats w))
    = text_of (js "booked-calls") w /\
  text_of (js "conversion-rate") (snd (fetchDashboardStats w))
    = text_of (js "conversion-rate") w.
Proof.
  intros Hr H1 T1 H2.
  assert (E : fetchDashboardStats w =
    (Ok tt,
     with_console (console w ++ [(js "Error fetching stats:", TypeError)])
       (with_elements
          (<[js "total-calls" := {| textContent := s1; value := value e1 |}]>
             (elements w))
          (with_requests (requests w ++ [stats_request]) w)))).
  { unfold fetchDashboardStats, try_catch.
    unfold bind at 1. rewrite (fetch_response _ _ _ Hr).
    unfold bind at 1. unfold json_of at 1, ret at 1.
    unfold bind at 1.
    erewrite write_stat_ok; [|exact H1|reflexivity|exact T1].
    unfold bind at 1.
    erewrite write_stat_missing;
      [reflexivity
      |simpl elements; rewrite lookup_insert_ne by done; exact H2
      |reflexivity]. }
  rewrite E. split; [reflexivity|]. unfold text_of. simpl elements.
  split; [now rewrite lookup_insert_eq|].
  split; now rewrite lookup_insert_ne by done.
Qed.

Lemma fetchDashboardStats_partial_witness :
  let w := partial_dashboard_page (fun _ => Response (Some sample_stats)) in
  text_of (js "total-calls") (snd (fetchDashboardStats w)) = Some (js "10") /\
  text_of (js "booked-calls") (snd (fetchDashboardStats w)) = Some (js "-") /\
  text_of (js "conversion-rate") (snd (fetchDashboardStats w)) = Some (js "-").
Proof.
  intros w.
  destruct (fetchDashboardStats_partial w
              [(js "total_calls", JNum 10); (js "hot_leads", JNum 2);
               (js "booked_calls", JNum 1);
               (js "conversion_rate", JStr (js "20%"))]
              (text_node (js "-")) (js "10")
              eq_refl ltac:(vm_compute; reflexivity) eq_refl
              ltac:(vm_compute; reflexivity))
    as (_ & H1 & H2 & H3).
  split; [exact H1|]. split; [rewrite H2 | rewrite H3]; vm_compute; reflexivity.
Defined.

(** X8. A reply that is JSON but not an object: on [null] the first
    property read throws, the [TypeError] is logged and the document is
    left as it was; on a number, a string, a boolean or an array every
    field reads as [undefined], so with the four nodes in the document
    they are all emptied and nothing is logged. *)
Theorem fetchDashboardStats_not_an_object w stats :
  next_reply w stats_request = Response (Some stats) ->
  (stats = JNull ->
   fetchDashboardStats w =
     (Ok tt,
      with_console (console w ++ [(js "Error fetching stats:", TypeError)])
        (with_requests (requests w ++ [stats_request]) w))) /\
  (scalar_or_array stats = true ->
   Forall (fun nk => is_Some (elements w !! fst nk)) stat_nodes ->
   console (snd (fetchDashboardStats w)) = console w /\
   Forall (fun nk => text_of (fst nk) (snd (fetchDashboardStats w)) = Some [])
     stat_nodes).
Proof.
  intros Hr. split.
  - intros ->. unfold fetchDashboardStats, try_catch.
    unfold bind at 1. rewrite (fetch_response _ _ _ Hr).
    unfold bind at 1. unfold json_of at 1, ret at 1.
    unfold bind at 1. now rewrite write_stat_null.
  - intros Hs HF.
    repeat (apply Forall_cons_1 in HF as [[? ?] HF]). simpl fst in *.
    assert (HG : forall k, Get stats k = Ok JUndefined)
      by (intros k; destruct stats; try discriminate; reflexivity).
    erewrite fetchDashboardStats_values;
      try eassumption; try apply HG; try reflexivity.
    split; [reflexivity|].
    unfold stat_nodes, text_of. simpl fst. simpl elements.
    repeat apply Forall_cons_2; try apply Forall_nil_2; now read_node.
Qed.

Lemma fetchDashboardStats_not_an_object_witness :
  (let w := dashboard_page (fun _ => Response (Some JNull)) in
   console (snd (fetchDashboardStats w))
     = [(js "Error fetching stats:", TypeError)] /\
   text_of (js "total-calls") (snd (fetchDashboardStats w)) = Some (js "-")) /\
  (let w := dashboard_page (fun _ => Response (Some (JNum 5))) in
   console (snd (fetchDashboardStats w)) = [] /\
   Forall (fun nk => text_of (fst nk) (snd (fetchDashboardStats w)) = Some [])
     stat_nodes).
Proof.
  split.
  - intros w.
    rewrite (proj1 (fetchDashboardStats_not_an_object w JNull eq_refl) eq_refl).
    split; vm_compute; reflexivity.
  - intros w.
    apply (proj2 (fetchDashboardStats_not_an_object w (JNum 5) eq_refl)).
    + reflexivity.
    + repeat apply Forall_cons_2; try apply Forall_nil_2;
        (eexists; vm_compute; reflexivity).
Defined.

(** X9. The statistics are fetched on dashboard pages only. When the
    document has no [.dashboard] element the start-up code issues no
    request and leaves the page as it is; when it has one, exactly the
    statistics request is issued; in both cases nothing is thrown, even
    if the request fails. *)
Theorem dashboard_init_gate w found :
  selectors w (js ".dashboard") = Ok found ->
  fst (dashboard_init w) = Ok tt /\
  (found = None -> snd (dashboard_init w) = w) /\
  (found <> None ->
   snd (dashboard_init w) = snd (fetchDashboardStats w) /\
   requests (snd (dashboard_init w)) = requests w ++ [stats_request]).
Proof.
  intros Hs. unfold dashboard_init, bind, querySelector.
  change (js ".dashboard") with [46; 100; 97; 115; 104; 98; 111; 97; 114; 100] in *.
  simpl. rewrite Hs. destruct found as [d|].
  - split; [reflexivity|]. split; [discriminate|]. intros _.
    split; [reflexivity|]. unfold spawn. simpl snd.
    destruct (fetchDashboardStats_shape w) as (els & log & E & _).
    rewrite E. reflexivity.
  - split; [reflexivity|]. split; [reflexivity|]. congruence.
Qed.

Lemma dashboard_init_gate_witness :
  snd (dashboard_init landing_page) = landing_page.
Proof.
  apply (dashboard_init_gate landing_page None eq_refl). reflexivity.
Defined.

(** ** The checkout button *)

Lemma checkoutButton_click_redirects w :
  checkoutButton_click w =
    (Ok tt,
     with_href (Some (js "/webhook/stripe-test")) (with_defaultPrevented true w)).
Proof. reflexivity. Qed.

(** ** More on campaign creation *)

Lemma read_field_missing {B} id w (k : jsval -> M B) :
  field_value id w = None ->
  bind (getElementById id) (fun el => bind (get_value el) k) w
    = (Throw TypeError, w).
Proof.
  unfold field_value, bind, getElementById, get_value.
  destruct (elements w !! id) as [e|] eqn:E; simpl; [discriminate|].
  reflexivity.
Qed.

(** The campaign handler, once the form is read, by the reply. *)
Lemma campaignForm_submit_eval w nm ni sc :
  field_value (js "campaign-name") w = Some nm ->
  field_value (js "target-niche") w = Some ni ->
  field_value (js "script") w = Some sc ->
  let r := create_request (formData_of nm ni sc) in
  let w1 := with_requests (requests w ++ [r]) (with_defaultPrevented true w) in
  let log e :=
    (Ok tt, with_console (console w ++ [(js "Error creating campaign:", e)]) w1) in
  campaignForm_submit w =
    match next_reply w r with
    | Rejected => log FetchFailed
    | Response None => log JSONSyntaxError
    | Response (Some data) =>
        match Get data (js "status") with
        | Throw e => log e
        | Ok status =>
            if strict_eq_str status (js "success") then
              match Get data (js "campaign_id") with
              | Throw e => log e
              | Ok campaign_id =>
                  match ToString campaign_id with
                  | Throw e => log e
                  | Ok s =>
                      (Ok tt, with_href (Some (js "/add-leads?campaign=" ++ s)) w1)
                  end
              end
            else (Ok tt, w1)
        end
    end.
Proof.
  intros H1 H2 H3 r w1 log.
  destruct (next_reply w r) as [|[data|]] eqn:Hr; subst log w1 r.
  - unfold campaignForm_submit.
    unfold bind at 1, preventDefault at 1.
    rewrite (read_field _ nm) by exact H1.
    rewrite (read_field _ ni) by exact H2.
    rewrite (read_field _ sc) by exact H3.
    unfold try_catch, bind at 1.
    now rewrite (fetch_rejected _ (with_defaultPrevented true w) Hr).
  - exact (campaignForm_submit_response w nm ni sc data H1 H2 H3 Hr).
  - unfold campaignForm_submit.
    unfold bind at 1, preventDefault at 1.
    rewrite (read_field _ nm) by exact H1.
    rewrite (read_field _ ni) by exact H2.
    rewrite (read_field _ sc) by exact H3.
    unfold try_catch, bind at 1.
    now rewrite (fetch_response _ (with_defaultPrevented true w) _ Hr).
Qed.

(** X10. The form is read before the [try]: when one of the three
    fields of the campaign form is not in the document, the [TypeError]
    escapes the handler; the default submission has been suppressed, but
    no request is issued, nothing is logged and there is no redirect. *)
Theorem campaignForm_submit_missing_field w :
  field_value (js "campaign-name") w = None \/
  field_value (js "target-niche") w = None \/
  field_value (js "script") w = None ->
  campaignForm_submit w = (Throw TypeError, with_defaultPrevented true w) /\
  requests (snd (campaignForm_submit w)) = requests w /\
  console (snd (campaignForm_submit w)) = console w /\
  href (snd (campaignForm_submit w)) = href w.
Proof.
  intros H.
  assert (E : campaignForm_submit w = (Throw TypeError, with_defaultPrevented true w)).
  { unfold campaignForm_submit. unfold bind at 1, preventDefault at 1.
    set (w0 := with_defaultPrevented true w).
    destruct (field_value (js "campaign-name") w0) as [nm|] eqn:E1;
      [|now apply read_field_missing].
    rewrite (read_field _ nm) by exact E1.
    destruct (field_value (js "target-niche") w0) as [ni|] eqn:E2;
      [|now apply read_field_missing].
    rewrite (read_field _ ni) by exact E2.
    destruct (field_value (js "script") w0) as [sc|] eqn:E3;
      [|now apply read_field_missing].
    exfalso. unfold w0 in *.
    change (field_value (js "campaign-name") w = Some nm) in E1.
    change (field_value (js "target-niche") w = Some ni) in E2.
    change (field_value (js "script") w = Some sc) in E3.
    destruct H as [H|[H|H]]; congruence. }
  rewrite E. repeat split.
Qed.

Lemma campaignForm_submit_missing_field_witness :
  campaignForm_submit landing_page
    = (Throw TypeError, with_defaultPrevented true landing_page).
Proof.
  apply (campaignForm_submit_missing_field landing_page).
  left. vm_compute. reflexivity.
Defined.

(** X11. With the three fields in the document, the campaign handler
    issues exactly one request whatever the server answers: a POST to
    /api/campaign/create, of content type application/json, whose body is
    the object of the three form values under the keys name, niche and
    script, each written as a JSON string. No exception escapes and the
    document is not modified. *)
Theorem campaignForm_submit_request w a b c :
  field_value (js "campaign-name") w = Some (JStr a) ->
  field_value (js "target-niche") w = Some (JStr b) ->
  field_value (js "script") w = Some (JStr c) ->
  let r := create_request (formData_of (JStr a) (JStr b) (JStr c)) in
  fst (campaignForm_submit w) = Ok tt /\
  requests (snd (campaignForm_submit w)) = requests w ++ [r] /\
  elements (snd (campaignForm_submit w)) = elements w /\
  url r = js "/api/campaign/create" /\ method r = js "POST" /\
  headers r = [(js "Content-Type", js "application/json")] /\
  body r =
    Some (js "{" ++ QuoteJSONString (js "name") ++ js ":" ++ QuoteJSONString a
          ++ js "," ++ QuoteJSONString (js "niche") ++ js ":" ++ QuoteJSONString b
          ++ js "," ++ QuoteJSONString (js "script") ++ js ":" ++ QuoteJSONString c
          ++ js "}").
Proof.
  intros H1 H2 H3 r.
  rewrite (campaignForm_submit_eval w _ _ _ H1 H2 H3). fold r.
  assert (Hbody : body r =
    Some (js "{" ++ QuoteJSONString (js "name") ++ js ":" ++ QuoteJSONString a
          ++ js "," ++ QuoteJSONString (js "niche") ++ js ":" ++ QuoteJSONString b
          ++ js "," ++ QuoteJSONString (js "script") ++ js ":" ++ QuoteJSONString c
          ++ js "}")).
  { change (body r) with
      (Some (js "{" ++
             ((QuoteJSONString (js "name") ++ js ":" ++ QuoteJSONString a)
              ++ js "," ++
              (QuoteJSONString (js "niche") ++ js ":" ++ QuoteJSONString b)
              ++ js "," ++
              (QuoteJSONString (js "script") ++ js ":" ++ QuoteJSONString c))
             ++ js "}")).
    now rewrite <- !app_assoc. }
  destruct (next_reply w r) as [|[data|]]; try (repeat split; exact Hbody).
  destruct (Get data (js "status")) as [status|e];
    [|repeat split; exact Hbody].
  destruct (strict_eq_str status (js "success"));
    [|repeat split; exact Hbody].
  destruct (Get data (js "campaign_id")) as [cid|e];
    [|repeat split; exact Hbody].
  destruct (ToString cid) as [s|e]; repeat split; exact Hbody.
Qed.

Lemma campaignForm_submit_request_witness :
  List.map url (requests (snd (campaignForm_submit (campaign_page (fun _ => Rejected)))))
    = [js "/api/campaign/create"].
Proof.
  destruct (campaignForm_submit_request (campaign_page (fun _ => Rejected))
              (js "Spring") (js "dentists") (js "Hello")
              ltac:(vm_compute; reflexivity) ltac:(vm_compute; reflexivity)
              ltac:(vm_compute; reflexivity))
    as (_ & Hreq & _).
  rewrite Hreq. reflexivity.
Defined.

(** X12. A campaign creation that fails is logged and nothing else
    happens: when the request is rejected, when the body of the response
    is not JSON, and when it is the JSON value [null], one line "Error
    creating campaign:" goes to the console with the error, and there is
    no redirect. *)
Theorem campaignForm_submit_failures w nm ni sc :
  field_value (js "campaign-name") w = Some nm ->
  field_value (js "target-niche") w = Some ni ->
  field_value (js "script") w = Some sc ->
  let reply := next_reply w (create_request (formData_of nm ni sc)) in
  let logged e :=
    console (snd (campaignForm_submit w))
      = console w ++ [(js "Error creating campaign:", e)] /\
    href (snd (campaignForm_submit w)) = href w in
  (reply = Rejected -> logged FetchFailed) /\
  (reply = Response None -> logged JSONSyntaxError) /\
  (reply = Response (Some JNull) -> logged TypeError).
Proof.
  intros H1 H2 H3 reply logged. unfold logged, reply.
  rewrite (campaignForm_submit_eval w _ _ _ H1 H2 H3).
  repeat split; rewrite H; reflexivity.
Qed.

Lemma campaignForm_submit_failures_witness :
  console (snd (campaignForm_submit (campaign_page (fun _ => Rejected))))
    = [(js "Error creating campaign:", FetchFailed)].
Proof.
  apply (campaignForm_submit_failures (campaign_page (fun _ => Rejected))
           (JStr (js "Spring")) (JStr (js "dentists")) (JStr (js "Hello"))
           ltac:(vm_compute; reflexivity) ltac:(vm_compute; reflexivity)
           ltac:(vm_compute; reflexivity)).
  reflexivity.
Defined.

(** ** More on lead upload and campaign launch *)

(** X13. The leads text is read before the [try]: when the leads-csv
    element is not in the document, or is not a form control (its
    [value] is [undefined]), the [TypeError] escapes the handler; the
    default submission has been suppressed, but no request is issued,
    nothing is logged and there is no redirect. *)
Theorem leadsForm_submit_missing_field w :
  field_value (js "leads-csv") w = None \/
  field_value (js "leads-csv") w = Some JUndefined ->
  leadsForm_submit w = (Throw TypeError, with_defaultPrevented true w) /\
  requests (snd (leadsForm_submit w)) = requests w /\
  console (snd (leadsForm_submit w)) = console w /\
  href (snd (leadsForm_submit w)) = href w.
Proof.
  intros H.
  assert (E : leadsForm_submit w = (Throw TypeError, with_defaultPrevented true w)).
  { unfold leadsForm_submit. unfold bind at 1, preventDefault at 1.
    rewrite read_param.
    destruct H as [H|H].
    - now apply read_field_missing.
    - now rewrite (read_field _ JUndefined) by exact H. }
  rewrite E. repeat split.
Qed.

Lemma leadsForm_submit_missing_field_witness :
  leadsForm_submit landing_page
    = (Throw TypeError, with_defaultPrevented true landing_page).
Proof.
  apply (leadsForm_submit_missing_field landing_page).
  left. vm_compute. reflexivity.
Defined.

(** X14. An upload that does not succeed stops the flow: when the upload
    request is rejected or its body is not JSON, one line "Error
    uploading leads:" is logged; when the upload answers with a status
    other than "success" nothing is logged; in all three cases the
    upload is the only request issued (the campaign is not launched) and
    there is no redirect. *)
Theorem leadsForm_submit_upload_failures w text :
  field_value (js "leads-csv") w = Some (JStr text) ->
  let up := upload_request (campaign_param w) (parseLeads text) in
  let w' := snd (leadsForm_submit w) in
  (next_reply w up = Rejected ->
   requests w' = requests w ++ [up] /\ href w' = href w /\
   console w' = console w ++ [(js "Error uploading leads:", FetchFailed)]) /\
  (next_reply w up = Response None ->
   requests w' = requests w ++ [up] /\ href w' = href w /\
   console w' = console w ++ [(js "Error uploading leads:", JSONSyntaxError)]) /\
  (forall data status,
     next_reply w up = Response (Some data) ->
     Get data (js "status") = Ok status -> status <> JStr (js "success") ->
     requests w' = requests w ++ [up] /\ href w' = href w /\
     console w' = console w).
Proof.
  intros Hf up w'. unfold w'.
  rewrite (leadsForm_submit_eval w text Hf). fold up.
  split; [|split].
  - intros ->. repeat split.
  - intros ->. repeat split.
  - intros data status -> -> Hs.
    rewrite (strict_eq_str_false _ _ Hs). repeat split.
Qed.

Lemma leadsForm_submit_upload_failures_witness :
  let w := leads_page [(js "campaign", js "7")] (js "Alice, 555-1111")
             (fun _ => Rejected) in
  List.map url (requests (snd (leadsForm_submit w))) = [js "/api/leads/upload"] /\
  console (snd (leadsForm_submit w))
    = [(js "Error uploading leads:", FetchFailed)].
Proof.
  intros w.
  destruct (proj1 (leadsForm_submit_upload_failures w (js "Alice, 555-1111")
                     ltac:(vm_compute; reflexivity)) eq_refl)
    as (Hreq & _ & Hlog).
  split; [rewrite Hreq | rewrite Hlog]; reflexivity.
Defined.

(** X15. What a submission of the leads form can do at most, the text
    being read: no exception escapes; the upload is issued first and at
    most one more request follows, the launch; at most one line is
    logged; the only redirect there can be is to /dashboard; the document
    is not modified. *)
Theorem leadsForm_submit_bounds w text :
  field_value (js "leads-csv") w = Some (JStr text) ->
  let up := upload_request (campaign_param w) (parseLeads text) in
  let la := launch_request (id_text (campaign_param w)) in
  let w' := snd (leadsForm_submit w) in
  fst (leadsForm_submit w) = Ok tt /\
  (requests w' = requests w ++ [up] \/ requests w' = requests w ++ [up; la]) /\
  (exists log, console w' = console w ++ log /\ (length log <= 1)%nat) /\
  (href w' = href w \/ href w' = Some (js "/dashboard")) /\
  elements w' = elements w.
Proof.
  intros Hf up la w'. unfold w'.
  rewrite (leadsForm_submit_eval w text Hf). fold up.
  assert (H0 : exists log : list (jsstring * jserror),
             console w = console w ++ log /\ (length log <= 1)%nat)
    by (exists []; rewrite app_nil_r; simpl; split; [reflexivity | lia]).
  assert (H1 : forall m e, exists log : list (jsstring * jserror),
             console w ++ [(m, e)] = console w ++ log /\ (length log <= 1)%nat)
    by (intros m e; exists [(m, e)]; simpl; split; [reflexivity | lia]).
  destruct (next_reply w up) as [|[data|]];
    try (simpl; repeat split; auto; fail).
  destruct (Get data (js "status")) as [status|e];
    [|simpl; repeat split; auto].
  destruct (strict_eq_str status (js "success"));
    [|simpl; repeat split; auto].
  rewrite launchCampaign_eval. fold la.
  destruct (next_reply _ la) as [|[d|]];
    try (simpl; rewrite <- app_assoc; repeat split; auto; fail).
  destruct (Get d (js "status")) as [st|e];
    [|simpl; rewrite <- app_assoc; repeat split; auto].
  destruct (strict_eq_str st (js "started"));
    simpl; rewrite <- app_assoc; repeat split; auto.
Qed.

Lemma leadsForm_submit_bounds_witness :
  let w := leads_page [(js "campaign", js "7")] (js "Alice, 555-1111")
             (fun _ => Rejected) in
  fst (leadsForm_submit w) = Ok tt /\
  elements (snd (leadsForm_submit w)) = elements w.
Proof.
  intros w.
  destruct (leadsForm_submit_bounds w (js "Alice, 555-1111")
              ltac:(vm_compute; reflexivity))
    as (Hok & _ & _ & _ & Hel).
  split; assumption.
Defined.

(** ** More on smooth scrolling *)

(** X16. A click on an anchor whose href is [#] followed by a plain
    identifier (ASCII letters, digits, [_] and [-], not starting with a
    digit or [-]): the default jump is suppressed and nothing is thrown;
    the element with that id, when the document has one, is scrolled
    into view, once; when it has none nothing is scrolled. *)
Theorem anchor_click_plain_id id w :
  plain_ident id = true ->
  anchor_click (35 :: id) w =
    (Ok tt,
     match elements w !! id with
     | Some _ => with_scrolled (scrolled w ++ [id]) (with_defaultPrevented true w)
     | None => with_defaultPrevented true w
     end).
Proof.
  intros Hp. unfold anchor_click, bind, preventDefault, querySelector.
  destruct id as [|c id]; [discriminate|].
  rewrite Hp.
  change (elements (with_defaultPrevented true w)) with (elements w).
  now destruct (elements w !! (c :: id)).
Qed.

Lemma anchor_click_plain_id_witness :
  scrolled (snd (anchor_click (js "#pricing") landing_page)) = [js "pricing"] /\
  scrolled (snd (anchor_click (js "#missing") landing_page)) = [].
Proof.
  split.
  - pose proof (anchor_click_plain_id (js "pricing") landing_page eq_refl) as H.
    change (35 :: js "pricing") with (js "#pricing") in H.
    rewrite H. vm_compute. reflexivity.
  - pose proof (anchor_click_plain_id (js "missing") landing_page eq_refl) as H.
    change (35 :: js "missing") with (js "#missing") in H.
    rewrite H. vm_compute. reflexivity.
Defined.

(** X17. Whatever the href and the page, and even when the selector is
    invalid and the handler throws, a click on an anchor suppresses the
    default jump, scrolls at most one element into view, and does
    nothing else: no request, no log, no redirect, no change to the
    document. *)
Theorem anchor_click_frame href w :
  exists outcome scr,
    anchor_click href w =
      (outcome, with_scrolled scr (with_defaultPrevented true w)) /\
    (scr = scrolled w \/
     exists id, scr = scrolled w ++ [id] /\ outcome = Ok tt).
Proof.
  unfold anchor_click, bind, preventDefault.
  set (w0 := with_defaultPrevented true w).
  assert (Hq : exists o, querySelector href w0 = (o, w0)).
  { unfold querySelector.
    destruct href as [|c href]; [eauto|].
    destruct c as [|p]; [eauto|].
    destruct (Pos.eq_dec p 35%positive) as [->|Hne].
    - destruct href as [|d href]; [eauto|].
      destruct (plain_ident (d :: href)); [eauto|].
      destruct (starts_with_digit (d :: href)); eauto.
    - do 6 (try destruct p as [p|p|]; try (eauto; fail)); congruence. }
  destruct Hq as [o Hq]. rewrite Hq.
  destruct o as [[id|]|e].
  - exists (Ok tt), (scrolled w ++ [id]). split; [reflexivity|]. right. eauto.
  - exists (Ok tt), (scrolled w). split; [reflexivity|]. now left.
  - exists (Throw e), (scrolled w). split; [reflexivity|]. now left.
Qed.

(** ** The bodies of the requests *)

Lemma hex_digit_printable n : 32 <= hex_digit n.
Proof. unfold hex_digit. destruct (n <? 10); lia. Qed.

Lemma quote_unit_printable c : printable (quote_unit c).
Proof.
  unfold quote_unit, UnicodeEscape.
  repeat match goal with
         | |- context [if ?b then _ else _] => destruct b eqn:?
         end;
    repeat constructor; try apply hex_digit_printable; try lia.
  now apply N.ltb_ge.
Qed.

Lemma quote_units_printable s : printable (quote_units s).
Proof.
  enough (H : printable (quote_units s) /\
              forall c, printable (quote_units (c :: s))) by apply H.
  induction s as [|d s [IH1 IH2]].
  - split; [constructor|]. intros c. apply quote_unit_printable.
  - split; [apply IH2|]. intros c.
    change (quote_units (c :: d :: s))
      with (if isLeadingSurrogate c && isTrailingSurrogate d
            then c :: d :: quote_units s
            else quote_unit c ++ quote_units (d :: s)).
    destruct (isLeadingSurrogate c && isTrailingSurrogate d) eqn:E.
    + apply andb_true_iff in E as [Hc Hd].
      unfold isLeadingSurrogate in Hc. unfold isTrailingSurrogate in Hd.
      apply andb_true_iff in Hc as [Hc _]. apply andb_true_iff in Hd as [Hd _].
      apply N.leb_le in Hc, Hd.
      constructor; [lia|]. constructor; [lia|]. exact IH1.
    + apply Forall_app. split; [apply quote_unit_printable | apply IH2].
Qed.

Lemma QuoteJSONString_printable s : printable (QuoteJSONString s).
Proof.
  unfold QuoteJSONString. constructor; [lia|].
  apply Forall_app. split; [apply quote_units_printable|].
  constructor; [lia | constructor].
Qed.

Lemma join_printable sep l :
  printable sep -> Forall (fun s => printable s) l -> printable (join sep l).
Proof.
  intros Hsep. induction l as [|t l IH]; intros HF; [constructor|].
  apply Forall_cons_1 in HF as [Ht HF].
  destruct l as [|t' l]; [exact Ht|].
  change (join sep (t :: t' :: l)) with (t ++ sep ++ join sep (t' :: l)).
  apply Forall_app. split; [exact Ht|].
  apply Forall_app. split; [exact Hsep | now apply IH].
Qed.

Lemma JSON_stringify_object props :
  JSON_stringify (JObj props) =
    Some (js "{" ++
          join (js ",")
            (omap (fun kv => (fun s => QuoteJSONString (fst kv) ++ js ":" ++ s)
                               <$> JSON_stringify (snd kv)) props)
          ++ js "}").
Proof. reflexivity. Qed.

Lemma JSON_stringify_array elems :
  JSON_stringify (JArr elems) =
    Some (js "[" ++
          join (js ",")
            (List.map (fun e => default (js "null") (JSON_stringify e)) elems)
          ++ js "]").
Proof. reflexivity. Qed.

Lemma braces_printable (opening closing s : jsstring) :
  printable opening -> printable closing -> printable s ->
  printable (opening ++ s ++ closing).
Proof.
  intros Ho Hc Hs. apply Forall_app. split; [exact Ho|].
  apply Forall_app. now split.
Qed.

Lemma js_printable (s : string) :
  forallb (fun u => 32 <=? u) (js s) = true -> printable (js s).
Proof.
  intros H. apply List.Forall_forall. intros u Hu.
  rewrite List.forallb_forall in H. apply N.leb_le. now apply H.
Qed.

Lemma member_printable k s :
  printable s -> printable (QuoteJSONString k ++ js ":" ++ s).
Proof.
  intros Hs. apply Forall_app. split; [apply QuoteJSONString_printable|].
  apply Forall_app. split; [now apply js_printable | exact Hs].
Qed.

(** The JSON text of an object whose values are strings or [undefined]. *)
Lemma stringify_fields_printable props :
  Forall (fun kv => snd kv = JUndefined \/ exists s, snd kv = JStr s) props ->
  exists b, JSON_stringify (JObj props) = Some b /\ printable b.
Proof.
  intros HF. eexists. split; [apply JSON_stringify_object|].
  apply braces_printable; try now apply js_printable.
  apply join_printable; [now apply js_printable|].
  set (f := fun kv : jsstring * jsval =>
              (fun s => QuoteJSONString (fst kv) ++ js ":" ++ s)
                <$> JSON_stringify (snd kv)).
  induction props as [|[k v] props IH]; [constructor|].
  apply Forall_cons_1 in HF as [Hv HF]. simpl in Hv.
  destruct Hv as [->|[s ->]].
  - change (omap f ((k, JUndefined) :: props)) with (omap f props).
    now apply IH.
  - change (omap f ((k, JStr s) :: props))
      with ((QuoteJSONString k ++ js ":" ++ QuoteJSONString s) :: omap f props).
    constructor; [|now apply IH].
    apply member_printable, QuoteJSONString_printable.
Qed.

Lemma field_value_shape id w v :
  field_value id w = Some v -> v = JUndefined \/ exists s, v = JStr s.
Proof.
  unfold field_value. destruct (elements w !! id) as [e|]; simpl; [|discriminate].
  intros [= <-]. destruct (value e); eauto.
Qed.

(** X18. The bodies of the two POST requests are JSON texts with no raw
    control character, in particular no line break: whatever the form
    holds (the script of a campaign can have several lines, a name can
    hold a tab or a quote), every code unit of the body of the create
    request and of the upload request is at least 32. *)
Theorem request_bodies_printable :
  (forall w nm ni sc,
     field_value (js "campaign-name") w = Some nm ->
     field_value (js "target-niche") w = Some ni ->
     field_value (js "script") w = Some sc ->
     exists b, body (create_request (formData_of nm ni sc)) = Some b /\
               printable b) /\
  (forall campaignId text,
     exists b, body (upload_request campaignId (parseLeads text)) = Some b /\
               printable b).
Proof.
  split.
  - intros w nm ni sc H1 H2 H3.
    apply field_value_shape in H1, H2, H3.
    apply (stringify_fields_printable
             [(js "name", nm); (js "niche", ni); (js "script", sc)]).
    repeat apply Forall_cons_2; try apply Forall_nil_2; assumption.
  - intros campaignId text. unfold upload_request.
    eexists. split; [apply JSON_stringify_object|].
    apply braces_printable; try now apply js_printable.
    apply join_printable; [now apply js_printable|].
    assert (Hid : exists t, JSON_stringify (id_value campaignId) = Some t /\
                            printable t).
    { destruct campaignId as [id|]; eexists; (split; [reflexivity|]).
      - apply QuoteJSONString_printable.
      - now apply js_printable. }
    destruct Hid as (t & Et & Ht).
    assert (E : omap (fun kv : jsstring * jsval =>
                        (fun s => QuoteJSONString (fst kv) ++ js ":" ++ s)
                          <$> JSON_stringify (snd kv))
                  [(js "campaignId", id_value campaignId);
                   (js "leads", JArr (List.map lead_value (parseLeads text)))]
                = [QuoteJSONString (js "campaignId") ++ js ":" ++ t;
                   QuoteJSONString (js "leads") ++ js ":"
                     ++ (js "[" ++
                         join (js ",")
                           (List.map (fun e => default (js "null") (JSON_stringify e))
                              (List.map lead_value (parseLeads text)))
                         ++ js "]")]).
    { cbn [omap list_omap fst snd]. rewrite Et, JSON_stringify_array.
      reflexivity. }
    rewrite E.
    constructor; [|constructor; [|constructor]].
    + now apply member_printable.
    + apply member_printable.
      apply braces_printable; try now apply js_printable.
      apply join_printable; [now apply js_printable|].
      clear E. induction (parseLeads text) as [|l leads IH]; [constructor|].
      change (List.map (fun e => default (js "null") (JSON_stringify e))
                (List.map lead_value (l :: leads)))
        with (default (js "null") (JSON_stringify (lead_value l))
              :: List.map (fun e => default (js "null") (JSON_stringify e))
                   (List.map lead_value leads)).
      constructor; [|exact IH].
      destruct (stringify_fields_printable
                  [(js "name", from_option JStr JUndefined (name l));
                   (js "phone", from_option JStr JUndefined (phone l))])
        as (b & E & Hb).
      { repeat apply Forall_cons_2; try apply Forall_nil_2; simpl;
          [destruct (name l) | destruct (phone l)]; eauto. }
      unfold lead_value. rewrite E. exact Hb.
Qed.

Lemma request_bodies_printable_witness :
  exists b,
    body (create_request
            (formData_of (JStr (js "Spring")) (JStr (js "dentists"))
               (JStr (js "Hello" ++ [LF] ++ js "there"))))
      = Some b /\
    printable b.
Proof.
  apply (proj1 request_bodies_printable
           (with_elements
              (<[js "script" := input_field (js "Hello" ++ [LF] ++ js "there")]>
                 (elements (campaign_page (fun _ => Rejected))))
              (campaign_page (fun _ => Rejected))));
    vm_compute; reflexivity.
Defined.
